(** * Illinois Sunshine ETL: a model of [etl.py] and its load/merge properties

    The development follows the layout of the Python module:

    - cells, rows and relations as the program and the database hold them;
    - the clauses the merge statements are made of;
    - the database, the SQL statements the program sends and the connection
      with its transactions;
    - one module per dataset class, with its attributes, its [transform]
      and its [upsert], after the shared [SunshineTransformLoad]
      ([executeTransaction], [createTempTable], [load], [update]);
    - the materialized-view builder ([SunshineViews]);
    - the properties: normalizers, views, transactions, staging relation,
      loader, merges.

    Text cells are [string]s over the 256 Latin-1 code points, which is how
    the files are decoded ([encoding='latin1']).  Python's [None] and SQL's
    [NULL] are both [None : cell]. *)

From Stdlib Require Import ZArith Ascii String List Bool Lia.
From stdpp Require Import base option list gmap strings fin_maps.

Local Open Scope string_scope.
Local Open Scope list_scope.

(** ** Cells, records and relations *)

(** What a cell can hold once it is not [None]: text read from a file, a
    Python/SQL boolean, or a timestamp produced by SQL's [NOW()]. *)
Inductive value :=
| VStr (s : string)
| VBool (b : bool)
| VTime (t : Z).

#[global] Instance value_eq_dec : EqDecision value.
Proof. solve_decision. Defined.

Definition cell := option value.

(** A row of a relation: column name to value; a column that is absent from
    the map is [NULL].  Rows are compared column by column ([map_eq]). *)
Abbreviation row := (gmap string value).

(** A relation is a bag of rows; the list order stands for the physical order. *)
Abbreviation table := (list row).

(** [r.[c]]: the cell of column [c]. *)
Definition col (c : string) (r : row) : cell := r !! c.

(** [SET c = v] on one row. *)
Definition set_col (c : string) (v : cell) (r : row) : row :=
  match v with
  | Some x => <[c := x]> r
  | None => delete c r
  end.

(** SQL equality in a [WHERE] or [ON] clause: [NULL = x] is not true. *)
Definition sql_eq (a b : cell) : bool :=
  match a, b with
  | Some x, Some y => bool_decide (x = y)
  | _, _ => false
  end.

(** A normalized record, [OrderedDict(zip(header, row))]: keys in insertion
    order, a repeated key keeps its first position and takes the last value. *)
Definition record := list (string * cell).

Fixpoint od_set (k : string) (v : cell) (d : record) : record :=
  match d with
  | [] => [(k, v)]
  | (k', v') :: d' =>
      if String.eqb k' k then (k', v) :: d' else (k', v') :: od_set k v d'
  end.

Definition OrderedDict (kvs : list (string * cell)) : record :=
  fold_left (fun d kv => od_set (fst kv) (snd kv) d) kvs [].

Fixpoint od_get (k : string) (d : record) : option cell :=
  match d with
  | [] => None
  | (k', v) :: d' => if String.eqb k' k then Some v else od_get k d'
  end.

(** Python's [zip]: stops at the shorter argument. *)
Fixpoint zip {A B} (xs : list A) (ys : list B) : list (A * B) :=
  match xs, ys with
  | x :: xs', y :: ys' => (x, y) :: zip xs' ys'
  | _, _ => []
  end.

(** ** Exceptions *)

Inductive exn :=
| ProgrammingError      (* sa.exc.ProgrammingError *)
| DBAPIError            (* any other SQL-level error: IntegrityError, DataError, ... *)
| StatementError        (* a bind parameter of the statement has no value *)
| IndexError
| ZeroDivisionError.

#[global] Instance exn_eq_dec : EqDecision exn.
Proof. solve_decision. Defined.

(** ** [str.strip()] *)

(** [str.isspace] on the Latin-1 code points: TAB..CR, FS..US, space, NEL
    and the no-break space. *)
Definition isspace (a : ascii) : bool :=
  let n := nat_of_ascii a in
  (Nat.leb 9 n && Nat.leb n 13) || (Nat.leb 28 n && Nat.leb n 32)
  || Nat.eqb n 133 || Nat.eqb n 160.

Fixpoint lstrip (s : string) : string :=
  match s with
  | EmptyString => EmptyString
  | String a s' => if isspace a then lstrip s' else s
  end.

Fixpoint rstrip (s : string) : string :=
  match s with
  | EmptyString => EmptyString
  | String a s' =>
      match rstrip s' with
      | EmptyString => if isspace a then EmptyString else String a EmptyString
      | r => String a r
      end
  end.

Definition strip (s : string) : string := lstrip (rstrip s).

(** Python truthiness of a string: [not s] holds for the empty string only. *)
Definition str_not (s : string) : bool :=
  match s with EmptyString => true | _ => false end.

(** ** List operations of the normalizers *)

(** [row.insert(i, x)]: an index past the end appends. *)
Definition py_insert {A} (i : nat) (x : A) (l : list A) : list A :=
  take i l ++ x :: drop i l.

(** [row[i]]: [IndexError] out of range. *)
Definition py_get {A} (i : nat) (l : list A) : exn + A :=
  match l !! i with
  | Some x => inr x
  | None => inl IndexError
  end.

(** [row[i] = x]: [IndexError] out of range. *)
Definition py_set {A} (i : nat) (x : A) (l : list A) : exn + list A :=
  if decide (i < length l) then inr (<[i := x]> l) else inl IndexError.

(** The tables of [sunshine.models], whose column lists are not part of this
    module: they are a parameter [columns] of everything that reads them. *)
Inductive model :=
| Committee | Candidate | Officer | Candidacy
| D2Report | FiledDoc | Receipt | Expenditure | Investment.

(** A generator's output: the items it yields and the exception that ends
    it, if one does. *)
Definition generator (A : Type) : Type := (list A * option exn)%type.

(** [for row in rows: if row: yield f(row)] where [f] may raise. *)
Fixpoint yield_rows {A B} (f : list A -> exn + B) (rows : list (list A))
  : generator B :=
  match rows with
  | [] => ([], None)
  | [] :: rest => yield_rows f rest
  | r :: rest =>
      match f r with
      | inl e => ([], Some e)
      | inr x => let '(xs, e) := yield_rows f rest in (x :: xs, e)
      end
  end.

(** [header = next(reader)]: the first line is consumed; on an empty file the
    generator ends at once. *)
Definition skip_header {A} (file : list A) : list A :=
  match file with
  | [] => []
  | _ :: rows => rows
  end.

(** ** The clauses of the merge statements *)

(** [SET f = subq.f] for every [f] of the header. *)
Definition assign (header : list string) (subq t : row) : row :=
  foldr (fun f r => set_col f (col f subq) r) t header.

(** [UPDATE target SET ... FROM (SELECT * FROM staging) AS subq WHERE on]:
    a target row that no staged row joins is left alone; one that several
    staged rows join is updated once, from the first of them (PostgreSQL
    uses one of them and does not say which). *)
Definition UPDATE_FROM (set : row -> row -> row) (on : row -> row -> bool)
    (target staging : table) : table :=
  map (fun t => match find (on t) staging with
                | Some subq => set subq t
                | None => t
                end) target.

(** The rows of [RETURNING *] of such an [UPDATE]: the updated rows. *)
Definition UPDATE_FROM_RETURNING (set : row -> row -> row) (on : row -> row -> bool)
    (target staging : table) : list row :=
  flat_map (fun t => match find (on t) staging with
                     | Some subq => [set subq t]
                     | None => []
                     end) target.

(** [temp LEFT JOIN data ON on]: every pair that joins, and every [temp] row
    that joins nothing once, with a [data] side that is all [NULL]. *)
Definition LEFT_JOIN (on : row -> row -> bool) (temp data : table)
  : list (row * option row) :=
  flat_map (fun s => match List.filter (fun d => on d s) data with
                     | [] => [(s, None)]
                     | ds => map (fun d => (s, Some d)) ds
                     end) temp.

(** [data.c] in a row of the left join. *)
Definition data_col (c : string) (j : row * option row) : cell :=
  match snd j with
  | Some d => col c d
  | None => None
  end.

(** [c IS NULL] *)
Definition IS_NULL (c : cell) : bool :=
  match c with
  | None => true
  | Some _ => false
  end.

(** [SELECT temp.* FROM ... WHERE w] over the rows of a join. *)
Definition SELECT_temp (w : row * option row -> bool) (js : list (row * option row))
  : list row :=
  map fst (List.filter w js).

(** [NOW()] *)
Definition NOW (now : Z) : cell := Some (VTime now).

(** ** The database and the statements the program sends *)

(** The database as far as the program can tell: the tables that exist with
    their rows, the materialized views that exist, and the clock that
    [NOW()] reads. *)
Record database := Database {
  relations : gmap string table;
  matviews : gset string;
  clock : Z
}.

(** What a merge statement computes from the rows of the target and of the
    staging relation at the time [now]: the new rows of the target and the
    rows of its [RETURNING] clause. *)
Definition merge_fn := Z -> table -> table -> table * list row.

Inductive sql :=
| CREATE_TABLE_AS_NO_DATA (name src : string)
| CREATE_TABLE (name : string) (columns : list string)
| DROP_TABLE_IF_EXISTS (name : string)
| INSERT_VALUES (name : string) (header : list string) (params : list record)
| MERGE (target staging : string) (f : merge_fn)
| REFRESH_MATERIALIZED_VIEW (name : string)
| CREATE_MATERIALIZED_VIEW (name : string) (reads : list string).

Definition exists_relation (name : string) (db : database) : bool :=
  bool_decide (is_Some (relations db !! name)) || bool_decide (name ∈ matviews db).

Definition set_relation (name : string) (t : table) (db : database) : database :=
  Database (<[name := t]> (relations db)) (matviews db) (clock db).

(** The row an [INSERT ... (header) VALUES (:h, ...)] stores for one
    parameter dictionary: every bind parameter must have a value. *)
Fixpoint bind_params (header : list string) (d : record) : exn + row :=
  match header with
  | [] => inr ∅
  | h :: hs =>
      match od_get h d, bind_params hs d with
      | Some v, inr r => inr (set_col h v r)
      | None, _ => inl StatementError
      | _, inl e => inl e
      end
  end.

Fixpoint bind_all (header : list string) (ds : list record) : exn + list row :=
  match ds with
  | [] => inr []
  | d :: ds' =>
      match bind_params header d, bind_all header ds' with
      | inr r, inr rs => inr (r :: rs)
      | inl e, _ => inl e
      | _, inl e => inl e
      end
  end.

Section Engine.

(** The verdict of the database on a statement for reasons this model does
    not track: the column types and constraints declared in
    [sunshine.models], the privileges of the session.  [None] accepts the
    statement; [Some e] makes it raise [e] and change nothing. *)
Variable verdict : sql -> database -> option exn.

(** One statement on one database state: the error it raises, or the new
    state and the rows it returns.  A statement that raises changes
    nothing. *)
Definition run_sql (q : sql) (db : database) : exn + (database * list row) :=
  match verdict q db with
  | Some e => inl e
  | None =>
      match q with
      | CREATE_TABLE_AS_NO_DATA name src =>
          if exists_relation name db then inl ProgrammingError
          else if exists_relation src db then inr (set_relation name [] db, [])
          else inl ProgrammingError
      | CREATE_TABLE name _ =>
          if exists_relation name db then inl ProgrammingError
          else inr (set_relation name [] db, [])
      | DROP_TABLE_IF_EXISTS name =>
          inr (Database (delete name (relations db)) (matviews db) (clock db), [])
      | INSERT_VALUES name header params =>
          match bind_all header params with
          | inl e => inl e
          | inr rows =>
              match relations db !! name with
              | None => inl ProgrammingError
              | Some t => inr (set_relation name (t ++ rows) db, [])
              end
          end
      | MERGE target staging f =>
          match relations db !! target, relations db !! staging with
          | Some t, Some s =>
              let '(t', returned) := f (clock db) t s in
              inr (set_relation target t' db, returned)
          | _, _ => inl ProgrammingError
          end
      | REFRESH_MATERIALIZED_VIEW name =>
          if bool_decide (name ∈ matviews db) then inr (db, [])
          else inl ProgrammingError
      | CREATE_MATERIALIZED_VIEW name reads =>
          if exists_relation name db then inl ProgrammingError
          else if forallb (fun r => exists_relation r db) reads
          then inr (Database (relations db) ({[name]} ∪ matviews db) (clock db), [])
          else inl ProgrammingError
      end
  end.

(** ** The connection *)

(** [committed] is the durable state; [pending] is the state seen inside
    the open transaction, when there is one; [sent] lists the statements
    executed so far, oldest first. *)
Record connection := Connection {
  committed : database;
  pending : option database;
  sent : list sql
}.

Definition current (c : connection) : database :=
  match pending c with
  | Some db => db
  | None => committed c
  end.

(** Code that uses the connection: it returns or raises, and leaves a
    connection behind. *)
Definition M (A : Type) : Type := connection -> (exn + A) * connection.

Definition ret {A} (x : A) : M A := fun c => (inr x, c).

Definition raise {A} (e : exn) : M A := fun c => (inl e, c).

Definition bind {A B} (m : M A) (k : A -> M B) : M B :=
  fun c =>
    match m c with
    | (inl e, c') => (inl e, c')
    | (inr x, c') => k x c'
    end.

(** [try: m except sa.exc.ProgrammingError: h] *)
Definition try_except_ProgrammingError {A} (m : M A) (h : M A) : M A :=
  fun c =>
    match m c with
    | (inl ProgrammingError, c') => h c'
    | r => r
    end.

(** [connection.begin()] *)
Definition begin : M unit :=
  fun c => (inr tt, Connection (committed c) (Some (current c)) (sent c)).

(** [trans.commit()] *)
Definition commit : M unit :=
  fun c => (inr tt, Connection (current c) None (sent c)).

(** [trans.rollback()] *)
Definition rollback : M unit :=
  fun c => (inr tt, Connection (committed c) None (sent c)).

(** [connection.execute(query, *args)] *)
Definition execute (q : sql) : M (list row) :=
  fun c =>
    let sent' := sent c ++ [q] in
    match run_sql q (current c) with
    | inl e => (inl e, Connection (committed c) (pending c) sent')
    | inr (db, rows) =>
        match pending c with
        | Some _ => (inr rows, Connection (committed c) (Some db) sent')
        | None => (inr rows, Connection db None sent')
        end
    end.

End Engine.

Arguments ret {A} x _.
Arguments raise {A} e _.
Arguments bind {A B} m k _.
Arguments try_except_ProgrammingError {A} m h _.

Declare Scope conn_scope.
Delimit Scope conn_scope with conn.
Notation "x <- m ;; k" := (bind m (fun x => k))
  (at level 100, m at next level, right associativity) : conn_scope.
Notation "m ;; k" := (bind m (fun _ => k))
  (at level 100, right associativity) : conn_scope.

(** ** Dataset drivers *)

(** What a dataset class supplies to the shared [load] and [update]: its
    attributes and the methods a subclass may override. *)
Module Self.
Record driver := Driver {
  table_name : string;
  header : list string;
  transform : list (list string) -> generator record;
  createTempTable : M unit;
  upsert : sql
}.
End Self.
Abbreviation driver := Self.driver.
Abbreviation Driver := Self.Driver.

Definition temp_ (table_name : string) : string := "temp_" ++ table_name.

Module SunshineTransformLoad.

(** [row[idx] = cell.strip(); if not row[idx]: row[idx] = None]: the test
    reads the cell after it was stripped. *)
Definition clean (c : string) : cell :=
  let s := strip c in
  if str_not s then None else Some (VStr s).

Definition transform_row (header : list string) (r : list string) : exn + record :=
  inr (OrderedDict (zip header (map clean r))).

(** The rows are those of [RowChecker(reader).checked_rows()], csvkit's
    iterator: its output is the input here. *)
Definition transform (header : list string) (checked_rows : list (list string))
  : generator record :=
  yield_rows (transform_row header) checked_rows.

(** [WHERE {0}.id = subq.id], and [LEFT JOIN ... USING(id)]. *)
Definition on_id (data temp : row) : bool :=
  sql_eq (col "id" data) (col "id" temp).

(** The statement is one [WITH data_update AS (UPDATE ...) INSERT ...]:
    both parts read the target as it was before the statement. *)
Definition upsert_rows (header : list string) : merge_fn :=
  fun now target temp =>
    let data_update := UPDATE_FROM (assign header) on_id target temp in
    let inserted :=
      SELECT_temp (fun j => IS_NULL (data_col "id" j))
                  (LEFT_JOIN on_id temp target) in
    (data_update ++ inserted, inserted).

Definition upsert (table_name : string) (header : list string) : sql :=
  MERGE table_name (temp_ table_name) (upsert_rows header).

Section WithEngine.

Variable verdict : sql -> database -> option exn.

Definition executeTransaction (query : sql) : M unit :=
  (begin ;;
   try_except_ProgrammingError
     (execute verdict query ;; commit)
     rollback)%conn.

Definition createTempTable (table_name : string) : M unit :=
  executeTransaction (CREATE_TABLE_AS_NO_DATA (temp_ table_name) table_name).

(** [update] prints the number of returned rows and returns nothing. *)
Definition update (self : driver) : M unit :=
  (begin ;;
   try_except_ProgrammingError
     (inserted <- execute verdict self.(Self.upsert) ;; commit)
     rollback)%conn.

Definition insert (self : driver) (rows : list record) : sql :=
  INSERT_VALUES (temp_ self.(Self.table_name)) self.(Self.header) rows.

(** The body of [for row in self.transform()]: [rows] is the batch
    collected so far.  [len(rows) % self.chunk_size] divides by
    [chunk_size]. *)
Fixpoint load_loop (self : driver) (chunk_size : Z) (items : list record)
    (rows : list record) : M (list record) :=
  match items with
  | [] => ret rows
  | row :: items' =>
      let rows := rows ++ [row] in
      if (chunk_size =? 0)%Z then raise ZeroDivisionError
      else if (Z.of_nat (length rows) mod chunk_size =? 0)%Z
      then (executeTransaction (insert self rows) ;;
            load_loop self chunk_size items' [])%conn
      else load_loop self chunk_size items' rows
  end.

(** An exception of the generator leaves [load] from inside the loop,
    before the last batch is flushed. *)
Definition load (self : driver) (chunk_size : Z) (file : list (list string))
  : M unit :=
  (self.(Self.createTempTable) ;;
   let '(items, raised) := self.(Self.transform) file in
   rows <- load_loop self chunk_size items [] ;;
   match raised with
   | Some e => raise e
   | None =>
       match rows with
       | [] => ret tt
       | _ => executeTransaction (insert self rows)
       end
   end)%conn.

(** A class that overrides nothing but its attributes. *)
Definition self (table_name : string) (header : list string) : driver :=
  Driver table_name header (transform header)
         (createTempTable table_name) (upsert table_name header).

End WithEngine.

End SunshineTransformLoad.

(** The loop shared by the transforms of the dataset classes:
    [row[idx] = cell.strip(); if not cell: row[idx] = None], where [cell] is
    the loop variable, the cell as it was read. *)
Definition clean_cell (c : string) : cell :=
  if str_not c then None else Some (VStr (strip c)).

(** [row[i] = f(row[i])] *)
Definition recode (i : nat) (f : cell -> cell) (r : list cell) : exn + list cell :=
  match py_get i r with
  | inl e => inl e
  | inr c => py_set i (f c) r
  end.

Module SunshineCommittees.

Definition table_name := "committees".
Definition header (columns : model -> list string) := columns Committee.

(** [if row[14] != 'A': row[14] = False else: row[14] = True] *)
Definition status (c : cell) : cell :=
  if bool_decide (c = Some (VStr "A")) then Some (VBool true) else Some (VBool false).

Definition position (c : cell) : cell :=
  if bool_decide (c = Some (VStr "O")) then Some (VStr "oppose")
  else if bool_decide (c = Some (VStr "S")) then Some (VStr "support")
  else None.

Definition transform_row (header : list string) (r : list string) : exn + record :=
  let r := map clean_cell r in
  match recode 14 status r with
  | inl e => inl e
  | inr r =>
      match recode 23 position r with
      | inl e => inl e
      | inr r =>
          match recode 24 position r with
          | inl e => inl e
          | inr r => inr (OrderedDict (zip header r))
          end
      end
  end.

Definition transform (header : list string) (file : list (list string))
  : generator record :=
  yield_rows (transform_row header) (skip_header file).

Definition self verdict columns : driver :=
  Driver table_name (header columns) (transform (header columns))
         (SunshineTransformLoad.createTempTable verdict table_name)
         (SunshineTransformLoad.upsert table_name (header columns)).

End SunshineCommittees.

Module SunshineCandidates.

Definition table_name := "candidates".

(** [[f for f in ... if f not in ['date_added', 'last_update', 'ocd_id']]] *)
Definition header (columns : model -> list string) : list string :=
  List.filter
    (fun f => negb (bool_decide (f ∈ ["date_added"; "last_update"; "ocd_id"])))
    (columns Candidate).

Definition upsert_rows (header : list string) : merge_fn :=
  fun now target temp =>
    let upsert :=
      UPDATE_FROM
        (fun subq t => set_col "last_update" (NOW now) (assign header subq t))
        SunshineTransformLoad.on_id target temp in
    let inserted :=
      map (fun temp_row =>
             set_col "date_added" (NOW now)
               (set_col "last_update" (NOW now) (assign header temp_row ∅)))
          (SELECT_temp (fun j => IS_NULL (data_col "id" j))
                       (LEFT_JOIN SunshineTransformLoad.on_id temp target)) in
    (upsert ++ inserted, inserted).

Definition upsert (header : list string) : sql :=
  MERGE table_name (temp_ table_name) (upsert_rows header).

Definition self verdict columns : driver :=
  Driver table_name (header columns)
         (SunshineTransformLoad.transform (header columns))
         (SunshineTransformLoad.createTempTable verdict table_name)
         (upsert (header columns)).

End SunshineCandidates.

Module SunshineOfficers.

Definition table_name := "officers".
Definition header (columns : model -> list string) := columns Officer.
Definition current := true.

Definition transform_row (current : bool) (header : list string) (r : list string)
  : exn + record :=
  let r := map clean_cell r in
  let r := py_insert 1 None r in
  let r := py_insert 11 None r in
  let r := r ++ [Some (VBool current)] in
  inr (OrderedDict (zip header r)).

Definition transform (header : list string) (file : list (list string))
  : generator record :=
  yield_rows (transform_row current header) (skip_header file).

(** [officers.id = subq.id AND officers.current = subq.current] *)
Definition on_id_current (data temp : row) : bool :=
  sql_eq (col "id" data) (col "id" temp)
  && sql_eq (col "current" data) (col "current" temp).

Definition upsert_rows (header : list string) : merge_fn :=
  fun now target temp =>
    let upsert := UPDATE_FROM (assign header) on_id_current target temp in
    let inserted :=
      map (fun temp_row => assign header temp_row ∅)
          (SELECT_temp (fun j => IS_NULL (data_col "id" j)
                                 && IS_NULL (data_col "current" j))
                       (LEFT_JOIN on_id_current temp target)) in
    (upsert ++ inserted, inserted).

Definition upsert (header : list string) : sql :=
  MERGE table_name (temp_ table_name) (upsert_rows header).

Definition self verdict columns : driver :=
  Driver table_name (header columns) (transform (header columns))
         (SunshineTransformLoad.createTempTable verdict table_name)
         (upsert (header columns)).

End SunshineOfficers.

Module SunshinePrevOfficers.

Definition table_name := "officers".
Definition header (columns : model -> list string) := columns Officer.
Definition current := false.

Definition transform_row (current : bool) (header : list string) (r : list string)
  : exn + record :=
  let r := map clean_cell r in
  let r := py_insert 10 None r in
  let r := r ++ [Some (VBool current)] in
  inr (OrderedDict (zip header r)).

Definition transform (header : list string) (file : list (list string))
  : generator record :=
  yield_rows (transform_row current header) (skip_header file).

(** [upsert] is inherited from [SunshineOfficers]. *)
Definition self verdict columns : driver :=
  Driver table_name (header columns) (transform (header columns))
         (SunshineTransformLoad.createTempTable verdict table_name)
         (SunshineOfficers.upsert (header columns)).

End SunshinePrevOfficers.

Module SunshineCandidacy.

Definition table_name := "candidacies".
Definition header (columns : model -> list string) := columns Candidacy.

(** [self.election_types.get(row[2])] *)
Definition election_types (c : cell) : cell :=
  match c with
  | Some (VStr "CE") => Some (VStr "Consolidated Election")
  | Some (VStr "GP") => Some (VStr "General Primary")
  | Some (VStr "GE") => Some (VStr "General Election")
  | Some (VStr "CP") => Some (VStr "Consolidated Primary")
  | Some (VStr "NE") => None
  | Some (VStr "SE") => Some (VStr "Special Election")
  | _ => None
  end.

Definition race_types (c : cell) : cell :=
  match c with
  | Some (VStr "Inc") => Some (VStr "incumbent")
  | Some (VStr "Open") => Some (VStr "open seat")
  | Some (VStr "Chal") => Some (VStr "challenger")
  | Some (VStr "Ret") => Some (VStr "retired")
  | _ => None
  end.

Definition outcome (c : cell) : cell :=
  if bool_decide (c = Some (VStr "Won")) then Some (VStr "won")
  else if bool_decide (c = Some (VStr "Lost")) then Some (VStr "lost")
  else None.

Definition transform_row (header : list string) (r : list string) : exn + record :=
  let r := map clean_cell r in
  match recode 2 election_types r with
  | inl e => inl e
  | inr r =>
      match recode 4 race_types r with
      | inl e => inl e
      | inr r =>
          match recode 5 outcome r with
          | inl e => inl e
          | inr r => inr (OrderedDict (zip header r))
          end
      end
  end.

Definition transform (header : list string) (file : list (list string))
  : generator record :=
  yield_rows (transform_row header) (skip_header file).

Definition self verdict columns : driver :=
  Driver table_name (header columns) (transform (header columns))
         (SunshineTransformLoad.createTempTable verdict table_name)
         (SunshineTransformLoad.upsert table_name (header columns)).

End SunshineCandidacy.

Module SunshineCandidateCommittees.

Definition table_name := "candidate_committees".
Definition header := ["committee_id"; "candidate_id"].

(** The cells are cleaned, then [row.pop(0)] drops the first one. *)
Definition transform_row (header : list string) (r : list string) : exn + record :=
  let r := map clean_cell r in
  let r := tail r in
  inr (OrderedDict (zip header r)).

Definition transform (header : list string) (file : list (list string))
  : generator record :=
  yield_rows (transform_row header) (skip_header file).

(** [WHERE {0}.{1} = subq.{1} AND {0}.{2} = subq.{2}] with the two columns
    of the header; the [ON] clause of the insert names the same columns. *)
Definition on_link (data temp : row) : bool :=
  sql_eq (col "committee_id" data) (col "committee_id" temp)
  && sql_eq (col "candidate_id" data) (col "candidate_id" temp).

Definition on_link' (data temp : row) : bool :=
  sql_eq (col "candidate_id" temp) (col "candidate_id" data)
  && sql_eq (col "committee_id" temp) (col "committee_id" data).

Definition upsert_rows (header : list string) : merge_fn :=
  fun now target temp =>
    let upsert := UPDATE_FROM (assign header) on_link target temp in
    let inserted :=
      SELECT_temp (fun j => IS_NULL (data_col "candidate_id" j)
                            && IS_NULL (data_col "committee_id" j))
                  (LEFT_JOIN on_link' temp target) in
    (upsert ++ inserted, inserted).

Definition upsert : sql :=
  MERGE table_name (temp_ table_name) (upsert_rows header).

Definition self verdict : driver :=
  Driver table_name header (transform header)
         (SunshineTransformLoad.createTempTable verdict table_name)
         upsert.

End SunshineCandidateCommittees.

Module SunshineOfficerCommittees.

Definition table_name := "officers".
Definition header := ["committee_id"; "officer_id"].

Definition transform := SunshineCandidateCommittees.transform.

Definition createTempTable verdict : M unit :=
  (SunshineTransformLoad.executeTransaction verdict
     (DROP_TABLE_IF_EXISTS (temp_ table_name)) ;;
   SunshineTransformLoad.executeTransaction verdict
     (CREATE_TABLE (temp_ table_name) ["committee_id"; "officer_id"]))%conn.

(** [WHERE officers.id = subq.officer_id AND officers.current = TRUE] *)
Definition on_officer (data temp : row) : bool :=
  sql_eq (col "id" data) (col "officer_id" temp)
  && sql_eq (col "current" data) (Some (VBool true)).

Definition set_committee (subq t : row) : row :=
  set_col "committee_id" (col "committee_id" subq) t.

(** A single [UPDATE ... RETURNING *]: nothing is inserted. *)
Definition upsert_rows : merge_fn :=
  fun now target temp =>
    (UPDATE_FROM set_committee on_officer target temp,
     UPDATE_FROM_RETURNING set_committee on_officer target temp).

Definition upsert : sql :=
  MERGE "officers" (temp_ table_name) upsert_rows.

Definition self verdict : driver :=
  Driver table_name header (transform header) (createTempTable verdict) upsert.

End SunshineOfficerCommittees.

Module SunshineD2Reports.
Definition table_name := "d2_reports".
Definition header (columns : model -> list string) := columns D2Report.
Definition self verdict columns : driver :=
  SunshineTransformLoad.self verdict table_name (header columns).
End SunshineD2Reports.

Module SunshineFiledDocs.
Definition table_name := "filed_docs".
Definition header (columns : model -> list string) := columns FiledDoc.
Definition self verdict columns : driver :=
  SunshineTransformLoad.self verdict table_name (header columns).
End SunshineFiledDocs.

Module SunshineReceipts.
Definition table_name := "receipts".
Definition header (columns : model -> list string) := columns Receipt.
Definition self verdict columns : driver :=
  SunshineTransformLoad.self verdict table_name (header columns).
End SunshineReceipts.

Module SunshineExpenditures.
Definition table_name := "expenditures".
Definition header (columns : model -> list string) := columns Expenditure.
Definition self verdict columns : driver :=
  SunshineTransformLoad.self verdict table_name (header columns).
End SunshineExpenditures.

Module SunshineInvestments.
Definition table_name := "investments".
Definition header (columns : model -> list string) := columns Investment.
Definition self verdict columns : driver :=
  SunshineTransformLoad.self verdict table_name (header columns).
End SunshineInvestments.


(** ** The materialized views *)

Module SunshineViews.

Section WithEngine.

Variable verdict : sql -> database -> option exn.

(** As [SunshineTransformLoad.executeTransaction], but the handler ends in
    [raise e]. *)
Definition executeTransaction (query : sql) : M unit :=
  (begin ;;
   try_except_ProgrammingError
     (execute verdict query ;; commit)
     (rollback ;; raise ProgrammingError))%conn.

(** The body every view method has: [try: REFRESH ... except
    sa.exc.ProgrammingError: CREATE ...], the second argument listing the
    relations the defining query reads. *)
Definition refresh_or_create (name : string) (reads : list string) : M unit :=
  try_except_ProgrammingError
    (executeTransaction (REFRESH_MATERIALIZED_VIEW name))
    (executeTransaction (CREATE_MATERIALIZED_VIEW name reads)).

Definition condensedExpenditures : M unit :=
  refresh_or_create "condensed_expenditures"
    ["expenditures"; "most_recent_filings"; "filed_docs"].

Definition condensedReceipts : M unit :=
  refresh_or_create "condensed_receipts"
    ["receipts"; "most_recent_filings"; "filed_docs"].

Definition expendituresByCandidate : M unit :=
  refresh_or_create "expenditures_by_candidate"
    ["candidates"; "expenditures"; "committees"].

Definition receiptsAggregates : M unit :=
  refresh_or_create "receipts_by_week" ["receipts"].

Definition committeeReceiptAggregates : M unit :=
  refresh_or_create "committee_receipts_by_week" ["receipts"].

Definition incumbentCandidates : M unit :=
  refresh_or_create "incumbent_candidates" ["candidates"; "candidacies"].

Definition mostRecentFilings : M unit :=
  refresh_or_create "most_recent_filings"
    ["committees"; "filed_docs"; "d2_reports"].

Definition committeeMoney : M unit :=
  refresh_or_create "committee_money" ["most_recent_filings"; "receipts"].

Definition candidateMoney : M unit :=
  refresh_or_create "candidate_money"
    ["candidates"; "candidate_committees"; "committees"; "committee_money"].

Definition fullSearchView : M unit :=
  refresh_or_create "full_search"
    ["candidates"; "committees"; "condensed_receipts"; "condensed_expenditures";
     "officers"; "investments"].

Definition makeAllViews : M unit :=
  (expendituresByCandidate ;;
   receiptsAggregates ;;
   committeeReceiptAggregates ;;
   incumbentCandidates ;;
   mostRecentFilings ;;
   condensedReceipts ;;
   condensedExpenditures ;;
   committeeMoney ;;
   candidateMoney ;;
   fullSearchView)%conn.

End WithEngine.

(** The views in the order [makeAllViews] calls their methods, each with the
    relations its defining query reads. *)
Definition build_order : list (string * list string) :=
  [ ("expenditures_by_candidate", ["candidates"; "expenditures"; "committees"]);
    ("receipts_by_week", ["receipts"]);
    ("committee_receipts_by_week", ["receipts"]);
    ("incumbent_candidates", ["candidates"; "candidacies"]);
    ("most_recent_filings", ["committees"; "filed_docs"; "d2_reports"]);
    ("condensed_receipts", ["receipts"; "most_recent_filings"; "filed_docs"]);
    ("condensed_expenditures", ["expenditures"; "most_recent_filings"; "filed_docs"]);
    ("committee_money", ["most_recent_filings"; "receipts"]);
    ("candidate_money",
     ["candidates"; "candidate_committees"; "committees"; "committee_money"]);
    ("full_search",
     ["candidates"; "committees"; "condensed_receipts"; "condensed_expenditures";
      "officers"; "investments"]) ].

(** Calling the methods of a list of views one after the other. *)
Fixpoint build_all verdict (views : list (string * list string)) : M unit :=
  match views with
  | [] => ret tt
  | (name, reads) :: rest =>
      (refresh_or_create verdict name reads ;; build_all verdict rest)%conn
  end.

End SunshineViews.

(** ** Vocabulary of the statements about the views *)

(** The statements one view method sends: the refresh alone, or the refresh
    and then the create. *)
Definition refresh_then_maybe_create (view : string * list string) (step : list sql)
  : Prop :=
  step = [REFRESH_MATERIALIZED_VIEW (fst view)]
  \/ step = [REFRESH_MATERIALIZED_VIEW (fst view);
             CREATE_MATERIALIZED_VIEW (fst view) (snd view)].

(** In a build order, whatever a view reads that is itself in the order
    stands earlier in it. *)
Definition reads_come_earlier (order : list (string * list string)) : Prop :=
  forall i v reads d,
    order !! i = Some (v, reads) -> In d reads -> In d (map fst order) ->
    exists j, j < i /\ map fst order !! j = Some d.

(** The refresh of [name] on connection [c] raises [ProgrammingError]. *)
Definition refresh_raises verdict (name : string) (c : connection) : bool :=
  match run_sql verdict (REFRESH_MATERIALIZED_VIEW name) (current c) with
  | inl ProgrammingError => true
  | _ => false
  end.

(** A database that refuses every refresh, as one does when the session
    does not own the views. *)
Definition refuses_refresh (q : sql) (db : database) : option exn :=
  match q with
  | REFRESH_MATERIALIZED_VIEW _ => Some ProgrammingError
  | _ => None
  end.

(** A database that objects to nothing beyond what the model tracks. *)
Definition accepts : sql -> database -> option exn := fun _ _ => None.

(** ** Vocabulary of the statements about the loader *)

(** The record has a value for every bind parameter of the insert. *)
Definition has_params (header : list string) (d : record) : bool :=
  match bind_params header d with
  | inr _ => true
  | inl _ => false
  end.

(** ** Vocabulary of the statements about the merges *)

(** The staged rows that join no row of the target. *)
Definition anti_join (on : row -> row -> bool) (target temp : table) : table :=
  List.filter (fun s => negb (existsb (fun d => on d s) target)) temp.

(** SQL equality on every column of a key. *)
Definition on_cols (cols : list string) (data temp : row) : bool :=
  forallb (fun k => sql_eq (col k data) (col k temp)) cols.

(** No staged row has [NULL] in a key column. *)
Definition no_null_keys (cols : list string) (temp : table) : Prop :=
  forall s, In s temp -> on_cols cols s s = true.

(** No two different staged rows have the same key. *)
Definition distinct_keys (cols : list string) (temp : table) : Prop :=
  forall s s', In s temp -> In s' temp -> on_cols cols s s' = true -> s = s'.

(** The dataset classes that [__main__] loads and merges. *)
Inductive dataset :=
| Committees | Candidates | Officers | PrevOfficers | Candidacies
| CandidateCommittees | OfficerCommittees | FiledDocs | D2Reports
| Receipts | Expenditures | Investments.

Definition driver_of verdict (columns : model -> list string) (d : dataset) : driver :=
  match d with
  | Committees => SunshineCommittees.self verdict columns
  | Candidates => SunshineCandidates.self verdict columns
  | Officers => SunshineOfficers.self verdict columns
  | PrevOfficers => SunshinePrevOfficers.self verdict columns
  | Candidacies => SunshineCandidacy.self verdict columns
  | CandidateCommittees => SunshineCandidateCommittees.self verdict
  | OfficerCommittees => SunshineOfficerCommittees.self verdict
  | FiledDocs => SunshineFiledDocs.self verdict columns
  | D2Reports => SunshineD2Reports.self verdict columns
  | Receipts => SunshineReceipts.self verdict columns
  | Expenditures => SunshineExpenditures.self verdict columns
  | Investments => SunshineInvestments.self verdict columns
  end.

(** What the merge statement of a driver computes. *)
Definition merge_rows (q : sql) : merge_fn :=
  match q with
  | MERGE _ _ f => f
  | _ => fun _ target _ => (target, [])
  end.

(** The columns the merge predicate of a dataset compares.  The merge of
    the officer–committee links has no insert and no key of this kind. *)
Definition key_columns (d : dataset) : list string :=
  match d with
  | Officers | PrevOfficers => ["id"; "current"]
  | CandidateCommittees => ["committee_id"; "candidate_id"]
  | OfficerCommittees => []
  | _ => ["id"]
  end.

Definition staged_keys_ok (d : dataset) (temp : table) : Prop :=
  match d with
  | OfficerCommittees => True
  | _ => no_null_keys (key_columns d) temp /\ distinct_keys (key_columns d) temp
  end.

(** A candidate table for the examples: the three columns the class
    mentions and two more. *)
Definition example_columns (m : model) : list string :=
  match m with
  | Candidate => ["id"; "last_name"; "date_added"; "last_update"; "ocd_id"]
  | Officer => ["id"; "committee_id"; "last_name"; "current"]
  | _ => ["id"; "name"]
  end.

(** The [SET] list and the [SELECT] list of the candidates merge. *)
Definition candidates_update (header : list string) (now : Z) (subq t : row) : row :=
  set_col "last_update" (NOW now) (assign header subq t).

Definition candidates_insert (header : list string) (now : Z) (temp_row : row) : row :=
  set_col "date_added" (NOW now) (set_col "last_update" (NOW now) (assign header temp_row ∅)).

(** ** Vocabulary of the further statements about the normalizers *)

(** The cell is made of whitespace only (the empty cell included). *)
Definition blank (s : string) : bool :=
  forallb isspace (list_ascii_of_string s).

Definition first_char (s : string) : option ascii :=
  match s with
  | EmptyString => None
  | String a _ => Some a
  end.

Fixpoint last_char (s : string) : option ascii :=
  match s with
  | EmptyString => None
  | String a s' =>
      match last_char s' with
      | None => Some a
      | Some b => Some b
      end
  end.

(** The character is there and is not whitespace. *)
Definition not_space (a : option ascii) : Prop :=
  exists x, a = Some x /\ isspace x = false.

(** The values the recoded cells of the committee and candidacy files can
    take. *)
Definition committee_positions : list cell :=
  [None; Some (VStr "oppose"); Some (VStr "support")].

Definition election_type_names : list cell :=
  [None; Some (VStr "Consolidated Election"); Some (VStr "General Primary");
   Some (VStr "General Election"); Some (VStr "Consolidated Primary");
   Some (VStr "Special Election")].

Definition race_type_names : list cell :=
  [None; Some (VStr "incumbent"); Some (VStr "open seat");
   Some (VStr "challenger"); Some (VStr "retired")].

Definition outcomes : list cell :=
  [None; Some (VStr "won"); Some (VStr "lost")].

(** The rows a transform does not skip. *)
Definition nonempty_rows {A} (rows : list (list A)) : list (list A) :=
  List.filter (fun r => match r with [] => false | _ => true end) rows.

(** ** Vocabulary of the further statements about the merges *)

(** No two rows of the relation have the same key: a row joins none of the
    rows after it.  A row with [NULL] in a key column joins nothing. *)
Fixpoint unique_keys (cols : list string) (t : table) : Prop :=
  match t with
  | [] => True
  | r :: t' => (forall r', In r' t' -> on_cols cols r r' = false) /\ unique_keys cols t'
  end.

(** ** Vocabulary of the further statements about the views *)

(** The names of the views, in build order. *)
Definition view_names : list string := map fst SunshineViews.build_order.

(** The tables the defining queries of the views read. *)
Definition base_tables : list string :=
  ["candidates"; "expenditures"; "committees"; "receipts"; "candidacies";
   "filed_docs"; "d2_reports"; "candidate_committees"; "officers"; "investments"].

(** Every relation a view of the list reads is among the [known] ones or is
    a view that stands earlier in the list. *)
Fixpoint reads_known (known : list string) (views : list (string * list string)) : bool :=
  match views with
  | [] => true
  | (v, reads) :: rest =>
      forallb (fun d => bool_decide (d ∈ known)) reads && reads_known (v :: known) rest
  end.

(** * Properties *)

(** ** Row normalizers *)

Lemma lstrip_no_leading_space s a s' : lstrip s = String a s' -> isspace a = false.
Proof.
  induction s as [|b s IH]; simpl; [discriminate|].
  destruct (isspace b) eqn:Hb; [exact IH|].
  intros H. injection H as -> _. exact Hb.
Qed.

(** The base normalizer never emits the empty string. *)
Lemma clean_not_empty c : SunshineTransformLoad.clean c <> Some (VStr "").
Proof.
  unfold SunshineTransformLoad.clean. cbv zeta.
  destruct (strip c) eqn:E; simpl; congruence.
Qed.

(** A blank cell of the base normalizer is [None]: stripping a cell made of
    whitespace leaves nothing. *)
Lemma rstrip_blank s : forallb isspace (list_ascii_of_string s) = true -> rstrip s = "".
Proof.
  induction s as [|a s IH]; simpl; [reflexivity|].
  intros H. apply andb_prop in H as [Ha Hs].
  rewrite (IH Hs), Ha. reflexivity.
Qed.

Lemma clean_blank c :
  forallb isspace (list_ascii_of_string c) = true -> SunshineTransformLoad.clean c = None.
Proof.
  intros H. unfold SunshineTransformLoad.clean, strip. rewrite (rstrip_blank _ H).
  reflexivity.
Qed.

(** C6, at the failing input: [SunshineCandidateCommittees.transform] is
    given a data row whose second cell is one space.  The loop strips the
    cell to the empty string, but its test [if not cell] reads the cell as it
    was read, which is not empty, so the record carries the empty string and
    not [None].  The base class's loop, which tests [row[idx]], gives [None]
    for the same cell; so does a whitespace-only status or position cell of
    [SunshineCommittees] only because it is recoded afterwards. *)
Theorem blank_cell_kept_as_empty_string :
  SunshineCandidateCommittees.transform SunshineCandidateCommittees.header
    [["ID"; "CommitteeID"; "CandidateID"]; ["1"; " "; "7"]]
  = ([[("committee_id", Some (VStr "")); ("candidate_id", Some (VStr "7"))]], None)
  /\ clean_cell " " = Some (VStr "")
  /\ SunshineTransformLoad.clean " " = None
  /\ SunshineTransformLoad.transform SunshineCandidateCommittees.header
       [[" "; "7"]]
     = ([[("committee_id", None); ("candidate_id", Some (VStr "7"))]], None).
Proof. repeat split; vm_compute; reflexivity. Qed.

(** C7, at the failing input: the data row has two cells where the file has
    three columns.  [SunshineCandidateCommittees.transform] checks no count:
    it drops the first cell and zips what is left, so the record is emitted
    with the candidate id under [committee_id] and no [candidate_id] at all.
    A row with a cell too many is emitted as well, its last cell dropped. *)
Theorem short_row_emitted_misaligned :
  SunshineCandidateCommittees.transform SunshineCandidateCommittees.header
    [["ID"; "CommitteeID"; "CandidateID"]; ["12"; "7"]]
  = ([[("committee_id", Some (VStr "7"))]], None)
  /\ SunshineCandidateCommittees.transform SunshineCandidateCommittees.header
       [["ID"; "CommitteeID"; "CandidateID"]; ["1"; "12"; "7"; "x"]]
     = ([[("committee_id", Some (VStr "12")); ("candidate_id", Some (VStr "7"))]], None).
Proof. split; vm_compute; reflexivity. Qed.

(** ** The view builder *)

Section ViewProofs.

Variable verdict : sql -> database -> option exn.

Lemma views_executeTransaction_spec q c :
  SunshineViews.executeTransaction verdict q c =
  match run_sql verdict q (current c) with
  | inr (db, _) => (inr tt, Connection db None (sent c ++ [q]))
  | inl ProgrammingError =>
      (inl ProgrammingError, Connection (committed c) None (sent c ++ [q]))
  | inl e => (inl e, Connection (committed c) (Some (current c)) (sent c ++ [q]))
  end.
Proof.
  unfold SunshineViews.executeTransaction, bind, begin, try_except_ProgrammingError,
    execute, commit, rollback, raise, current; simpl.
  destruct (run_sql verdict q _) as [[]|[db rows]]; reflexivity.
Qed.

Lemma refresh_or_create_sent name reads c :
  sent (snd (SunshineViews.refresh_or_create verdict name reads c)) =
  sent c ++ REFRESH_MATERIALIZED_VIEW name ::
    (if refresh_raises verdict name c
     then [CREATE_MATERIALIZED_VIEW name reads] else []).
Proof.
  unfold SunshineViews.refresh_or_create, try_except_ProgrammingError, refresh_raises.
  rewrite views_executeTransaction_spec.
  destruct (run_sql verdict (REFRESH_MATERIALIZED_VIEW name) (current c))
    as [[]|[db rows]]; simpl; try reflexivity.
  rewrite views_executeTransaction_spec; simpl.
  destruct (run_sql verdict (CREATE_MATERIALIZED_VIEW name reads) _)
    as [[]|[db rows]]; simpl; rewrite <- app_assoc; reflexivity.
Qed.

Lemma refresh_or_create_step name reads c :
  exists step,
    refresh_then_maybe_create (name, reads) step
    /\ sent (snd (SunshineViews.refresh_or_create verdict name reads c)) = sent c ++ step.
Proof.
  rewrite refresh_or_create_sent.
  destruct (refresh_raises verdict name c); eexists; (split; [|reflexivity]).
  - right. reflexivity.
  - left. reflexivity.
Qed.

Lemma build_all_trace views : forall c,
  exists n steps,
    n <= length views
    /\ Forall2 refresh_then_maybe_create (take n views) steps
    /\ sent (snd (SunshineViews.build_all verdict views c)) = sent c ++ concat steps
    /\ (fst (SunshineViews.build_all verdict views c) = inr tt -> n = length views).
Proof.
  induction views as [|[name reads] rest IH]; intros c.
  - exists 0, []. simpl. rewrite app_nil_r. repeat split; auto.
  - destruct (refresh_or_create_step name reads c) as (step & Hstep & Hsent).
    simpl. unfold bind.
    destruct (SunshineViews.refresh_or_create verdict name reads c) as [[e|[]] c1] eqn:E;
      simpl in Hsent.
    + exists 1, [step]. simpl. rewrite take_0, app_nil_r.
      repeat split; [lia | constructor; [exact Hstep | constructor] | exact Hsent | discriminate].
    + destruct (IH c1) as (n & steps & Hn & HF & Hs & Hret).
      exists (S n), (step :: steps). simpl.
      repeat split.
      * lia.
      * constructor; assumption.
      * rewrite Hs, Hsent, <- app_assoc. reflexivity.
      * intros H. f_equal. apply Hret, H.
Qed.

Lemma makeAllViews_build_all c :
  SunshineViews.makeAllViews verdict c
  = SunshineViews.build_all verdict SunshineViews.build_order c.
Proof.
  unfold SunshineViews.makeAllViews, SunshineViews.build_order, SunshineViews.build_all,
    SunshineViews.expendituresByCandidate, SunshineViews.receiptsAggregates,
    SunshineViews.committeeReceiptAggregates, SunshineViews.incumbentCandidates,
    SunshineViews.mostRecentFilings, SunshineViews.condensedReceipts,
    SunshineViews.condensedExpenditures, SunshineViews.committeeMoney,
    SunshineViews.candidateMoney, SunshineViews.fullSearchView, bind, ret.
  repeat match goal with
         | |- context [SunshineViews.refresh_or_create verdict ?n ?r ?c] =>
             destruct (SunshineViews.refresh_or_create verdict n r c) as [[?|[]] ?]
         end; reflexivity.
Qed.

End ViewProofs.

Lemma build_order_reads_come_earlier : reads_come_earlier SunshineViews.build_order.
Proof.
  intros i v reads d Hi Hd Hin.
  do 10 (destruct i as [|i];
         [ injection Hi as <- <-; simpl in Hd, Hin;
           repeat (destruct Hd as [<-|Hd];
                   [ first [ exfalso; clear -Hin;
                             repeat (destruct Hin as [Hin|Hin]; [discriminate Hin|]);
                             exact Hin
                           | exists 4; split; [lia|reflexivity]
                           | exists 5; split; [lia|reflexivity]
                           | exists 6; split; [lia|reflexivity]
                           | exists 7; split; [lia|reflexivity] ] | ]);
           destruct Hd
         | ]).
  discriminate Hi.
Qed.

(** C10, as amended: [makeAllViews] calls the view methods in one fixed
    order, in which most_recent_filings precedes condensed_receipts and
    condensed_expenditures, these precede committee_money and
    candidate_money, and full_search is last, so that whatever view a view
    reads has been attempted before it.  The statements sent are, view after
    view of a prefix of that order (all of it when the call returns), the
    refresh alone or the refresh followed by the create.  A method sends the
    create exactly when its refresh raised [ProgrammingError]; when the
    database has no other objection to the refresh, that is exactly when the
    view does not exist. *)
Theorem makeAllViews_refresh_then_create verdict (c : connection) :
  map fst SunshineViews.build_order
  = ["expenditures_by_candidate"; "receipts_by_week"; "committee_receipts_by_week";
     "incumbent_candidates"; "most_recent_filings"; "condensed_receipts";
     "condensed_expenditures"; "committee_money"; "candidate_money"; "full_search"]
  /\ reads_come_earlier SunshineViews.build_order
  /\ (exists n steps,
        n <= length SunshineViews.build_order
        /\ Forall2 refresh_then_maybe_create (take n SunshineViews.build_order) steps
        /\ sent (snd (SunshineViews.makeAllViews verdict c)) = sent c ++ concat steps
        /\ (fst (SunshineViews.makeAllViews verdict c) = inr tt ->
            n = length SunshineViews.build_order))
  /\ (forall name reads c0,
        sent (snd (SunshineViews.refresh_or_create verdict name reads c0))
        = sent c0 ++ REFRESH_MATERIALIZED_VIEW name ::
            (if refresh_raises verdict name c0
             then [CREATE_MATERIALIZED_VIEW name reads] else []))
  /\ (forall name c0,
        verdict (REFRESH_MATERIALIZED_VIEW name) (current c0) = None ->
        refresh_raises verdict name c0 = negb (bool_decide (name ∈ matviews (current c0)))).
Proof.
  split; [reflexivity|].
  split; [exact build_order_reads_come_earlier|].
  split; [rewrite makeAllViews_build_all; apply build_all_trace|].
  split; [intros; apply refresh_or_create_sent|].
  intros name c0 Hv. unfold refresh_raises, run_sql. rewrite Hv.
  destruct (bool_decide (name ∈ matviews (current c0))); reflexivity.
Qed.

(** C10 as stated fails: the view [expenditures_by_candidate] exists, its
    refresh raises [ProgrammingError] for another reason (the database
    refuses refreshes), and the method goes on to send the create. *)
Lemma create_attempted_though_view_exists :
  let db := Database ∅ {["expenditures_by_candidate"]} 0 in
  let c := Connection db None [] in
  bool_decide ("expenditures_by_candidate" ∈ matviews (current c)) = true
  /\ sent (snd (SunshineViews.makeAllViews refuses_refresh c))
     = [REFRESH_MATERIALIZED_VIEW "expenditures_by_candidate";
        CREATE_MATERIALIZED_VIEW "expenditures_by_candidate"
          ["candidates"; "expenditures"; "committees"]]
  /\ fst (SunshineViews.makeAllViews refuses_refresh c) = inl ProgrammingError.
Proof. repeat split; vm_compute; reflexivity. Qed.

(** ** Transactions *)

Section ConnectionProofs.

Variable verdict : sql -> database -> option exn.

(** What [executeTransaction] of the loader does, by the outcome of the
    statement. *)
Lemma executeTransaction_spec q c :
  SunshineTransformLoad.executeTransaction verdict q c =
  match run_sql verdict q (current c) with
  | inr (db, _) => (inr tt, Connection db None (sent c ++ [q]))
  | inl ProgrammingError => (inr tt, Connection (committed c) None (sent c ++ [q]))
  | inl e => (inl e, Connection (committed c) (Some (current c)) (sent c ++ [q]))
  end.
Proof.
  unfold SunshineTransformLoad.executeTransaction, bind, begin,
    try_except_ProgrammingError, execute, commit, rollback, current; simpl.
  destruct (run_sql verdict q _) as [[]|[db rows]]; reflexivity.
Qed.

Lemma update_spec self c :
  SunshineTransformLoad.update verdict self c =
  match run_sql verdict self.(Self.upsert) (current c) with
  | inr (db, _) => (inr tt, Connection db None (sent c ++ [self.(Self.upsert)]))
  | inl ProgrammingError =>
      (inr tt, Connection (committed c) None (sent c ++ [self.(Self.upsert)]))
  | inl e =>
      (inl e, Connection (committed c) (Some (current c)) (sent c ++ [self.(Self.upsert)]))
  end.
Proof.
  unfold SunshineTransformLoad.update, bind, begin,
    try_except_ProgrammingError, execute, commit, rollback, current; simpl.
  destruct (run_sql verdict _ _) as [[]|[db rows]]; reflexivity.
Qed.

Lemma executeTransaction_sent q c :
  sent (snd (SunshineTransformLoad.executeTransaction verdict q c)) = sent c ++ [q].
Proof.
  rewrite executeTransaction_spec.
  destruct (run_sql verdict q _) as [[]|[db rows]]; reflexivity.
Qed.

(** A full batch is written and the loop goes on with an empty one, whatever
    the write did short of raising. *)
Lemma load_loop_full_batch self B row items rows c :
  B <> 0%Z ->
  (Z.of_nat (length (rows ++ [row])) mod B = 0)%Z ->
  SunshineTransformLoad.load_loop verdict self B (row :: items) rows c =
  match SunshineTransformLoad.executeTransaction verdict
          (SunshineTransformLoad.insert self (rows ++ [row])) c with
  | (inl e, c') => (inl e, c')
  | (inr _, c') => SunshineTransformLoad.load_loop verdict self B items [] c'
  end.
Proof.
  intros HB Hmod. simpl.
  destruct (Z.eqb_spec B 0) as [|_]; [contradiction|].
  rewrite Hmod. simpl. unfold bind. reflexivity.
Qed.

End ConnectionProofs.

(** C3, as amended: when the batch write or the merge raises
    [ProgrammingError], the transaction is rolled back (the durable state
    is what it was, no transaction stays open) and the error is swallowed:
    [executeTransaction] and [update] return normally, and [load] goes on
    with the next batch.  Any other error of the statement leaves
    [executeTransaction] and [update] as raised, the durable state unchanged.
    When the statement succeeds its whole effect is committed: for the
    merge of the base class, the updated rows and the inserted rows together. *)
Theorem sql_errors_rolled_back verdict (self : driver) (rows : list record)
    (c : connection) :
  (* a batch write *)
  SunshineTransformLoad.executeTransaction verdict
    (SunshineTransformLoad.insert self rows) c
  = match run_sql verdict (SunshineTransformLoad.insert self rows) (current c) with
    | inr (db, _) =>
        (inr tt, Connection db None
                   (sent c ++ [SunshineTransformLoad.insert self rows]))
    | inl ProgrammingError =>
        (inr tt, Connection (committed c) None
                   (sent c ++ [SunshineTransformLoad.insert self rows]))
    | inl e =>
        (inl e, Connection (committed c) (Some (current c))
                  (sent c ++ [SunshineTransformLoad.insert self rows]))
    end
  (* the merge *)
  /\ SunshineTransformLoad.update verdict self c
     = match run_sql verdict self.(Self.upsert) (current c) with
       | inr (db, _) => (inr tt, Connection db None (sent c ++ [self.(Self.upsert)]))
       | inl ProgrammingError =>
           (inr tt, Connection (committed c) None (sent c ++ [self.(Self.upsert)]))
       | inl e =>
           (inl e, Connection (committed c) (Some (current c))
                     (sent c ++ [self.(Self.upsert)]))
       end
  (* the loop after a batch that was rolled back *)
  /\ (forall B row items,
        B <> 0%Z ->
        (Z.of_nat (length (rows ++ [row])) mod B = 0)%Z ->
        run_sql verdict (SunshineTransformLoad.insert self (rows ++ [row])) (current c)
        = inl ProgrammingError ->
        SunshineTransformLoad.load_loop verdict self B (row :: items) rows c
        = SunshineTransformLoad.load_loop verdict self B items []
            (Connection (committed c) None
               (sent c ++ [SunshineTransformLoad.insert self (rows ++ [row])])))
  (* the merge is whole *)
  /\ (forall name header target temp,
        verdict (SunshineTransformLoad.upsert name header) (current c) = None ->
        relations (current c) !! name = Some target ->
        relations (current c) !! temp_ name = Some temp ->
        run_sql verdict (SunshineTransformLoad.upsert name header) (current c)
        = inr (set_relation name
                 (UPDATE_FROM (assign header) SunshineTransformLoad.on_id target temp
                  ++ snd (SunshineTransformLoad.upsert_rows header
                            (clock (current c)) target temp))
                 (current c),
               snd (SunshineTransformLoad.upsert_rows header
                      (clock (current c)) target temp))).
Proof.
  split; [apply executeTransaction_spec|].
  split; [apply update_spec|].
  split.
  - intros B row items HB Hmod Hrun.
    rewrite (load_loop_full_batch verdict self B row items rows c HB Hmod).
    rewrite executeTransaction_spec, Hrun. reflexivity.
  - intros name header target temp Hv Ht Hs.
    unfold run_sql, SunshineTransformLoad.upsert in *. rewrite Hv, Ht, Hs.
    reflexivity.
Qed.

(** C3 as stated fails: the target table does not exist, so neither does
    the staging relation, and every batch write raises [ProgrammingError].
    [load] sends the second batch after the first one failed and returns
    normally; [update] then returns normally too, its merge having failed. *)
Lemma load_swallows_failed_batches :
  let self := SunshineCandidateCommittees.self accepts in
  let c := Connection (Database ∅ ∅ 0) None [] in
  let file := [["ID"; "CommitteeID"; "CandidateID"]; ["1"; "12"; "7"]; ["2"; "13"; "8"]] in
  let batch1 := [[("committee_id", Some (VStr "12")); ("candidate_id", Some (VStr "7"))]] in
  let batch2 := [[("committee_id", Some (VStr "13")); ("candidate_id", Some (VStr "8"))]] in
  let c1 := snd (SunshineTransformLoad.load accepts self 1 file c) in
  run_sql accepts (SunshineTransformLoad.insert self batch1) (current c)
  = inl ProgrammingError
  /\ fst (SunshineTransformLoad.load accepts self 1 file c) = inr tt
  /\ map (fun q => match q with INSERT_VALUES _ _ params => params | _ => [] end)
         (sent c1)
     = [[]; batch1; batch2]
  /\ relations (committed c1) = ∅
  /\ fst (SunshineTransformLoad.update accepts self c1) = inr tt.
Proof. repeat split; vm_compute; reflexivity. Qed.

(** ** The staging relation *)

(** C8, as amended: [update] does not drop the staging relation: after
    [update] it holds what it held before, whether the merge committed or
    was rolled back.  [SunshineOfficerCommittees.createTempTable] drops the
    staging relation before it creates it: when the database accepts its
    two statements the load starts from an empty staging relation. *)
Theorem staging_relation_persists verdict :
  (forall (self : driver) target staging f db log,
      self.(Self.upsert) = MERGE target staging f ->
      target <> staging ->
      relations (committed (snd (SunshineTransformLoad.update verdict self
                                   (Connection db None log)))) !! staging
      = relations db !! staging)
  /\ (forall db log,
        (forall q db', (exists n, q = DROP_TABLE_IF_EXISTS n) -> verdict q db' = None) ->
        (forall q db', (exists n cols, q = CREATE_TABLE n cols) -> verdict q db' = None) ->
        temp_ SunshineOfficerCommittees.table_name ∉ matviews db ->
        relations (committed (snd (SunshineOfficerCommittees.createTempTable verdict
                                     (Connection db None log))))
          !! temp_ SunshineOfficerCommittees.table_name
        = Some []).
Proof.
  split.
  - intros self target staging f db log Hq Hne.
    rewrite update_spec, Hq. unfold run_sql, current; simpl.
    destruct (verdict _ db) as [[]|]; try reflexivity.
    destruct (relations db !! target) as [t|] eqn:Ht; [|reflexivity].
    destruct (relations db !! staging) as [s|] eqn:Hs; [|simpl; rewrite Hs; reflexivity].
    destruct (f (clock db) t s) as [t' returned]. simpl.
    rewrite lookup_insert_ne by exact Hne. exact Hs.
  - intros db log Hdrop Hcreate Hview.
    unfold SunshineOfficerCommittees.createTempTable, bind.
    rewrite executeTransaction_spec. unfold run_sql at 1, current; simpl.
    rewrite Hdrop by eauto. simpl.
    rewrite executeTransaction_spec. unfold run_sql, current, exists_relation; simpl.
    rewrite Hcreate by eauto.
    rewrite lookup_delete_eq.
    rewrite (bool_decide_eq_false_2 (is_Some None)) by (intros [? ?]; discriminate).
    rewrite bool_decide_eq_false_2 by exact Hview.
    simpl. apply lookup_insert_eq.
Qed.

(** C8 as stated fails.  One run of the candidate–committee links loads one
    row and merges it; afterwards the staging relation is still there, with
    that row. *)
Lemma staging_left_over_after_merge :
  let self := SunshineCandidateCommittees.self accepts in
  let row1 : row := {["committee_id" := VStr "12"; "candidate_id" := VStr "7"]} in
  let c0 := Connection (Database {["candidate_committees" := []]} ∅ 0) None [] in
  let c1 := snd (SunshineTransformLoad.load accepts self 50000
                   [["ID"; "CommitteeID"; "CandidateID"]; ["1"; "12"; "7"]] c0) in
  let c2 := snd (SunshineTransformLoad.update accepts self c1) in
  fst (SunshineTransformLoad.update accepts self c1) = inr tt
  /\ relations (committed c2) !! "candidate_committees" = Some [row1]
  /\ relations (committed c2) !! "temp_candidate_committees" = Some [row1].
Proof. repeat split; vm_compute; reflexivity. Qed.

(** ** The staging loader *)

Section LoaderProofs.

Variable verdict : sql -> database -> option exn.
Variable self : driver.
Variable B : Z.

Hypothesis B_pos : (0 < B)%Z.
Hypothesis verdict_programming :
  forall q db e, verdict q db = Some e -> e = ProgrammingError.

Lemma bind_all_complete header rows :
  forallb (has_params header) rows = true -> exists rs, bind_all header rows = inr rs.
Proof.
  induction rows as [|d rows IH]; simpl; [eauto|].
  intros H. apply andb_prop in H as [Hd Hrows].
  destruct (IH Hrows) as [rs ->].
  unfold has_params in Hd. destruct (bind_params header d); [discriminate|eauto].
Qed.

(** A batch of complete records never makes [executeTransaction] raise. *)
Lemma batch_write_returns rows c :
  forallb (has_params self.(Self.header)) rows = true ->
  fst (SunshineTransformLoad.executeTransaction verdict
         (SunshineTransformLoad.insert self rows) c) = inr tt.
Proof.
  intros Hrows. rewrite executeTransaction_spec.
  unfold run_sql, SunshineTransformLoad.insert.
  destruct (verdict _ _) as [e|] eqn:Hv.
  - rewrite (verdict_programming _ _ _ Hv). reflexivity.
  - destruct (bind_all_complete _ _ Hrows) as [rs ->].
    destruct (relations (current c) !! _); reflexivity.
Qed.

Lemma full_batch_mod (n : nat) :
  (0 < Z.of_nat n <= B)%Z ->
  (Z.of_nat n mod B =? 0)%Z = bool_decide (Z.of_nat n = B).
Proof.
  intros Hn. case_bool_decide as Heq.
  - rewrite Heq, Z_mod_same_full. reflexivity.
  - rewrite Z.mod_small by lia. apply Z.eqb_neq. lia.
Qed.

(** The loop: full batches are sent as they fill up, the rest is handed to
    the final flush. *)
Lemma load_loop_batches items : forall rows c,
  (Z.of_nat (length rows) < B)%Z ->
  forallb (has_params self.(Self.header)) (rows ++ items) = true ->
  exists batches rest,
    fst (SunshineTransformLoad.load_loop verdict self B items rows c) = inr rest
    /\ sent (snd (SunshineTransformLoad.load_loop verdict self B items rows c))
       = sent c ++ map (SunshineTransformLoad.insert self) batches
    /\ rows ++ items = concat batches ++ rest
    /\ Forall (fun b => Z.of_nat (length b) = B) batches
    /\ (Z.of_nat (length rest) < B)%Z.
Proof.
  induction items as [|row items IH]; intros rows c Hlen Hall.
  - exists [], rows. simpl. rewrite !app_nil_r. repeat split; auto.
  - assert (Hlen' : (0 < Z.of_nat (length (rows ++ [row])) <= B)%Z)
      by (rewrite length_app; simpl; lia).
    simpl. destruct (Z.eqb_spec B 0) as [|_]; [lia|].
    rewrite (full_batch_mod _ Hlen').
    replace (rows ++ row :: items) with ((rows ++ [row]) ++ items) in *
      by (rewrite <- app_assoc; reflexivity).
    case_bool_decide as Hfull.
    + unfold bind.
      assert (Hbatch : forallb (has_params self.(Self.header)) (rows ++ [row]) = true)
        by (rewrite forallb_app in Hall; apply andb_prop in Hall as [H _]; exact H).
      pose proof (batch_write_returns (rows ++ [row]) c Hbatch) as Hret.
      pose proof (executeTransaction_sent verdict
                    (SunshineTransformLoad.insert self (rows ++ [row])) c) as Hsent.
      destruct (SunshineTransformLoad.executeTransaction verdict _ c) as [[e|[]] c1];
        simpl in Hret, Hsent; [discriminate|].
      destruct (IH [] c1) as (batches & rest & Hr & Hs & Hcat & Hfulls & Hrest).
      { simpl. lia. }
      { simpl. rewrite forallb_app in Hall. apply andb_prop in Hall as [_ H]. exact H. }
      exists ((rows ++ [row]) :: batches), rest.
      repeat split; auto.
      * rewrite Hs, Hsent, <- app_assoc. reflexivity.
      * simpl in Hcat. simpl. rewrite Hcat, <- !app_assoc. reflexivity.
    + destruct (IH (rows ++ [row]) c) as (batches & rest & Hr & Hs & Hcat & Hfulls & Hrest);
        [lia | exact Hall |].
      exists batches, rest. repeat split; auto.
Qed.

Lemma length_concat_full (batches : list (list record)) :
  Forall (fun b => Z.of_nat (length b) = B) batches ->
  Z.of_nat (length (concat batches)) = (Z.of_nat (length batches) * B)%Z.
Proof.
  induction 1 as [|b batches Hb _ IH]; simpl; [reflexivity|].
  rewrite length_app. lia.
Qed.

(** The number of batches is the ceiling of the number of records over [B]. *)
Lemma batch_count (k r : Z) :
  (0 <= k)%Z -> (0 <= r < B)%Z ->
  ((k * B + r + B - 1) / B = k + (if (r =? 0)%Z then 0 else 1))%Z.
Proof.
  intros Hk Hr. symmetry.
  destruct (Z.eqb_spec r 0) as [->|Hne].
  - apply Z.div_unique with (r := (B - 1)%Z); lia.
  - apply Z.div_unique with (r := (r - 1)%Z); lia.
Qed.


(** *** What the batch writes leave in the staging relation *)

Hypothesis accepts_inserts :
  forall rows db, verdict (SunshineTransformLoad.insert self rows) db = None.

Lemma bind_all_app header rows1 rows2 rs1 rs2 :
  bind_all header rows1 = inr rs1 -> bind_all header rows2 = inr rs2 ->
  bind_all header (rows1 ++ rows2) = inr (rs1 ++ rs2).
Proof.
  revert rs1. induction rows1 as [|d rows1 IH]; simpl; intros rs1 H1 H2.
  - injection H1 as <-. exact H2.
  - destruct (bind_params header d) as [e|r]; [discriminate|].
    destruct (bind_all header rows1) as [e|rs]; [discriminate|].
    injection H1 as <-. rewrite (IH rs eq_refl H2). reflexivity.
Qed.

Lemma batch_write_appends rows rs c old :
  bind_all self.(Self.header) rows = inr rs ->
  relations (current c) !! temp_ self.(Self.table_name) = Some old ->
  exists c',
    SunshineTransformLoad.executeTransaction verdict
      (SunshineTransformLoad.insert self rows) c = (inr tt, c')
    /\ pending c' = None
    /\ relations (current c') !! temp_ self.(Self.table_name) = Some (old ++ rs).
Proof.
  intros Hrs Hold. rewrite executeTransaction_spec.
  unfold run_sql. rewrite accepts_inserts.
  unfold SunshineTransformLoad.insert. rewrite Hrs, Hold.
  eexists. split; [reflexivity|]. split; [reflexivity|].
  unfold current. simpl. apply lookup_insert_eq.
Qed.

Lemma load_loop_staging items : forall rows c old,
  (Z.of_nat (length rows) < B)%Z ->
  forallb (has_params self.(Self.header)) (rows ++ items) = true ->
  relations (current c) !! temp_ self.(Self.table_name) = Some old ->
  exists rest written stored,
    fst (SunshineTransformLoad.load_loop verdict self B items rows c) = inr rest
    /\ rows ++ items = written ++ rest
    /\ bind_all self.(Self.header) written = inr stored
    /\ relations (current (snd (SunshineTransformLoad.load_loop verdict self B
                                   items rows c)))
         !! temp_ self.(Self.table_name) = Some (old ++ stored).
Proof.
  induction items as [|row items IH]; intros rows c old Hlen Hall Hold.
  - exists rows, [], []. simpl. rewrite !app_nil_r. auto.
  - assert (Hlen' : (0 < Z.of_nat (length (rows ++ [row])) <= B)%Z)
      by (rewrite length_app; simpl; lia).
    simpl. destruct (Z.eqb_spec B 0) as [|_]; [lia|].
    rewrite (full_batch_mod _ Hlen').
    replace (rows ++ row :: items) with ((rows ++ [row]) ++ items) in *
      by (rewrite <- app_assoc; reflexivity).
    case_bool_decide as Hfull.
    + unfold bind.
      rewrite forallb_app in Hall. apply andb_prop in Hall as [Hbatch Hitems].
      destruct (bind_all_complete _ _ Hbatch) as [rs Hrs].
      destruct (batch_write_appends _ _ c old Hrs Hold) as (c1 & -> & _ & Hold1).
      destruct (IH [] c1 (old ++ rs)) as (rest & written & stored & Hr & Hcat & Hw & Hst);
        [simpl; lia | exact Hitems | exact Hold1 |].
      exists rest, ((rows ++ [row]) ++ written), (rs ++ stored).
      split; [exact Hr|]. split; [simpl in Hcat; rewrite Hcat, <- !app_assoc; reflexivity|].
      split; [apply bind_all_app; assumption|].
      rewrite Hst, <- app_assoc. reflexivity.
    + apply IH; [lia | exact Hall | exact Hold].
Qed.

End LoaderProofs.

(** C9, as amended: for a batch size [B > 0] and the records [items] that the
    normalizer yields, when [createTempTable] returns and no batch write
    raises anything but [ProgrammingError] (the records have every field of
    the header), [load] returns and the batch writes it sends, in order, are
    [batches] with: their rows, concatenated, are the records, each once and
    in order; there are [ceil(n / B)] of them; every batch but the last has
    exactly [B] rows; the last one is not empty and has at most [B].  When
    the database accepts the batch writes, the staging relation ends up with
    the rows of the records added to what it held, each once and in order. *)
Theorem load_batches verdict (self : driver) (B : Z) (file : list (list string))
    (items : list record) (c : connection) :
  (0 < B)%Z ->
  self.(Self.transform) file = (items, None) ->
  (forall q db e, verdict q db = Some e -> e = ProgrammingError) ->
  forallb (has_params self.(Self.header)) items = true ->
  fst (self.(Self.createTempTable) c) = inr tt ->
  exists batches,
    fst (SunshineTransformLoad.load verdict self B file c) = inr tt
    /\ sent (snd (SunshineTransformLoad.load verdict self B file c))
       = sent (snd (self.(Self.createTempTable) c))
         ++ map (SunshineTransformLoad.insert self) batches
    /\ concat batches = items
    /\ Z.of_nat (length batches) = ((Z.of_nat (length items) + B - 1) / B)%Z
    /\ (forall i b, batches !! i = Some b -> S i < length batches ->
                    Z.of_nat (length b) = B)
    /\ (forall b, last batches = Some b ->
                  (0 < Z.of_nat (length b) <= B)%Z)
    /\ (forall old,
          (forall rows db, verdict (SunshineTransformLoad.insert self rows) db = None) ->
          relations (current (snd (self.(Self.createTempTable) c)))
            !! temp_ self.(Self.table_name) = Some old ->
          exists stored,
            bind_all self.(Self.header) items = inr stored
            /\ relations (current (snd (SunshineTransformLoad.load verdict self B file c)))
                 !! temp_ self.(Self.table_name) = Some (old ++ stored)).
Proof.
  intros HB Htr Hv Hitems Hcreate.
  unfold SunshineTransformLoad.load, bind.
  destruct (self.(Self.createTempTable) c) as [[e|[]] c1]; simpl in Hcreate;
    [discriminate|]. clear Hcreate.
  rewrite Htr. cbn [fst snd].
  destruct (load_loop_batches verdict self B HB Hv items [] c1)
    as (batches & rest & Hr & Hs & Hcat & Hfull & Hrest); [simpl; lia | exact Hitems |].
  pose proof (fun Hacc old =>
                load_loop_staging verdict self B HB Hacc items [] c1 old
                  ltac:(simpl; lia) Hitems) as Hstage.
  simpl in Hcat, Hstage.
  destruct (SunshineTransformLoad.load_loop verdict self B items [] c1) as [r c2].
  simpl in Hr, Hs, Hstage. subst r.
  pose proof (length_concat_full B batches Hfull) as Hlen.
  destruct rest as [|d rest].
  - (* nothing left to flush *)
    exists batches. rewrite app_nil_r in Hcat. simpl.
    split; [reflexivity|]. split; [exact Hs|]. split; [symmetry; exact Hcat|].
    split; [|split; [|split]].
    + rewrite Hcat, Hlen.
      replace (Z.of_nat (length batches) * B + B - 1)%Z
        with (Z.of_nat (length batches) * B + 0 + B - 1)%Z by lia.
      rewrite batch_count by lia. simpl. lia.
    + intros i b Hi _. rewrite Forall_lookup in Hfull. exact (Hfull i b Hi).
    + intros b Hlast. apply last_Some in Hlast as [l' ->].
      apply Forall_app in Hfull as [_ Hb]. inversion Hb; subst. lia.
    + intros old Hacc Hold.
      destruct (Hstage Hacc old Hold) as (rest & written & stored & Hrest' & Hw & Hb & Hst).
      injection Hrest' as <-. rewrite app_nil_r in Hw. subst written.
      exists stored. split; assumption.
  - (* the last, partial batch *)
    exists (batches ++ [d :: rest]).
    assert (Hd : forallb (has_params self.(Self.header)) (d :: rest) = true).
    { rewrite Hcat, forallb_app in Hitems. apply andb_prop in Hitems as [_ H]. exact H. }
    pose proof (batch_write_returns verdict self Hv (d :: rest) c2 Hd) as Hret.
    pose proof (executeTransaction_sent verdict
                  (SunshineTransformLoad.insert self (d :: rest)) c2) as Hsent.
    destruct (SunshineTransformLoad.executeTransaction verdict _ c2) as [[e|[]] c3]
      eqn:Hexec; simpl in Hret, Hsent; [discriminate|]. simpl.
    split; [reflexivity|]. split; [|split; [|split; [|split; [|split]]]].
    + rewrite Hsent, Hs, map_app, <- app_assoc. reflexivity.
    + rewrite concat_app. simpl. rewrite app_nil_r. symmetry. exact Hcat.
    + rewrite Hcat, !length_app, !Nat2Z.inj_add, Hlen. simpl length.
      rewrite batch_count by (simpl in Hrest; lia).
      destruct (Z.eqb_spec (Z.of_nat (S (length rest))) 0); lia.
    + intros i b Hi Hlt. rewrite length_app in Hlt. simpl in Hlt.
      rewrite lookup_app_l in Hi by lia.
      rewrite Forall_lookup in Hfull. exact (Hfull i b Hi).
    + intros b Hlast. rewrite last_snoc in Hlast. injection Hlast as <-.
      simpl in Hrest |- *. lia.
    + intros old Hacc Hold.
      destruct (Hstage Hacc old Hold) as (rest' & written & stored & Hrest' & Hw & Hb & Hst).
      injection Hrest' as <-.
      destruct (bind_all_complete _ _ Hd) as [rs Hrs].
      destruct (batch_write_appends verdict self Hacc _ _ c2 _ Hrs Hst)
        as (c' & Heq & _ & Hst').
      rewrite Hexec in Heq. injection Heq as <-.
      exists (stored ++ rs). split.
      * rewrite Hw. apply bind_all_app; assumption.
      * rewrite Hst', <- app_assoc. reflexivity.
Qed.

(** A run of the loader: five records and a batch size of two give the
    three batch writes of two, two and one records. *)
Lemma load_batches_witness :
  let self := SunshineCandidateCommittees.self accepts in
  let file := [["ID"; "CommitteeID"; "CandidateID"];
               ["1"; "12"; "7"]; ["2"; "13"; "8"]; ["3"; "14"; "9"];
               ["4"; "15"; "7"]; ["5"; "16"; "8"]] in
  let c := Connection (Database {["candidate_committees" := []]} ∅ 0) None [] in
  exists batches,
    fst (SunshineTransformLoad.load accepts self 2 file c) = inr tt
    /\ sent (snd (SunshineTransformLoad.load accepts self 2 file c))
       = sent (snd (self.(Self.createTempTable) c))
         ++ map (SunshineTransformLoad.insert self) batches
    /\ concat batches = fst (self.(Self.transform) file)
    /\ Z.of_nat (length batches)
       = ((Z.of_nat (length (fst (self.(Self.transform) file))) + 2 - 1) / 2)%Z
    /\ (forall i b, batches !! i = Some b -> S i < length batches ->
                    Z.of_nat (length b) = 2%Z)
    /\ (forall b, last batches = Some b -> (0 < Z.of_nat (length b) <= 2)%Z)
    /\ (forall old,
          (forall rows db, accepts (SunshineTransformLoad.insert self rows) db = None) ->
          relations (current (snd (self.(Self.createTempTable) c)))
            !! temp_ self.(Self.table_name) = Some old ->
          exists stored,
            bind_all self.(Self.header) (fst (self.(Self.transform) file)) = inr stored
            /\ relations (current (snd (SunshineTransformLoad.load accepts self 2 file c)))
                 !! temp_ self.(Self.table_name) = Some (old ++ stored)).
Proof.
  cbv zeta.
  apply (load_batches accepts (SunshineCandidateCommittees.self accepts) 2).
  - lia.
  - vm_compute. reflexivity.
  - intros q db e H. discriminate H.
  - vm_compute. reflexivity.
  - vm_compute. reflexivity.
Defined.

(** C9 as stated fails.  Three links and a batch size of -2: a batch of two
    and a batch of one are written, where [ceil(3 / -2)] is -1.  The same
    links and a batch size of 2 on a database without the target table: the
    staging relation is not created and both batch writes raise
    [ProgrammingError]; [load] returns all the same, and no record was
    written.  Three candidacies and then a row that is too short, with a
    batch size of 2: the normalizer raises after its third record and
    [load] with it, before the last batch is flushed; the third record is
    never written. *)
Lemma records_not_written_once :
  let links := SunshineCandidateCommittees.self accepts in
  let file := [["ID"; "CommitteeID"; "CandidateID"];
               ["1"; "12"; "7"]; ["2"; "13"; "8"]; ["3"; "14"; "9"]] in
  let d1 := [("committee_id", Some (VStr "12")); ("candidate_id", Some (VStr "7"))] in
  let d2 := [("committee_id", Some (VStr "13")); ("candidate_id", Some (VStr "8"))] in
  let d3 := [("committee_id", Some (VStr "14")); ("candidate_id", Some (VStr "9"))] in
  let batches (c : connection) :=
    map (fun q => match q with INSERT_VALUES _ _ params => params | _ => [] end)
        (sent c) in
  let c := Connection (Database {["candidate_committees" := []]} ∅ 0) None [] in
  let negative := SunshineTransformLoad.load accepts links (-2) file c in
  let refused := SunshineTransformLoad.load accepts links 2 file
                   (Connection (Database ∅ ∅ 0) None []) in
  let candidacies := SunshineCandidacy.self accepts example_columns in
  let raised := SunshineTransformLoad.load accepts candidacies 2
                  [["ID"; "CandidateID"; "ElectionType"; "ElectionYear"; "IncChallOpen";
                    "WonLost"];
                   ["1"; "7"; "GE"; "2014"; "Inc"; "Won"];
                   ["2"; "8"; "GP"; "2014"; "Chal"; "Lost"];
                   ["3"; "9"; "GE"; "2014"; "Open"; "Won"];
                   ["4"; "9"]]
                  (Connection (Database {["candidacies" := []]} ∅ 0) None []) in
  fst (links.(Self.transform) file) = [d1; d2; d3]
  /\ (fst negative = inr tt /\ batches (snd negative) = [[]; [d1; d2]; [d3]])
  /\ (fst refused = inr tt
      /\ batches (snd refused) = [[]; [d1; d2]; [d3]]
      /\ relations (committed (snd refused)) = ∅)
  /\ (fst raised = inl IndexError
      /\ relations (committed (snd raised)) !! "temp_candidacies"
         = Some [{["id" := VStr "1"; "name" := VStr "7"]};
                 {["id" := VStr "2"; "name" := VStr "8"]}]).
Proof. repeat split; vm_compute; reflexivity. Qed.

(** ** Merges *)

Lemma sql_eq_true a b : sql_eq a b = true <-> a = b /\ a <> None.
Proof.
  unfold sql_eq. destruct a as [x|], b as [y|]; simpl;
    try (split; [discriminate | intros [? ?]; congruence]).
  rewrite bool_decide_eq_true. split.
  - intros ->. split; [reflexivity|discriminate].
  - intros [H _]. congruence.
Qed.

Lemma sql_eq_sym a b : sql_eq a b = sql_eq b a.
Proof.
  destruct a as [x|], b as [y|]; simpl; try reflexivity.
  apply bool_decide_ext. split; congruence.
Qed.

Lemma col_set_col c c' v r :
  col c (set_col c' v r) = if bool_decide (c = c') then v else col c r.
Proof.
  unfold col, set_col. destruct v as [x|].
  - rewrite lookup_insert. case_bool_decide; case_decide; congruence.
  - rewrite lookup_delete. case_bool_decide; case_decide; congruence.
Qed.

Lemma col_assign header c s t :
  col c (assign header s t) = if bool_decide (c ∈ header) then col c s else col c t.
Proof.
  induction header as [|f header IH]; [reflexivity|].
  cbn [assign foldr]. fold (assign header s t).
  rewrite col_set_col, IH.
  destruct (decide (c = f)) as [->|Hne].
  - rewrite (bool_decide_eq_true_2 (f = f)) by reflexivity.
    rewrite (bool_decide_eq_true_2 (f ∈ f :: header)) by (left).
    reflexivity.
  - rewrite (bool_decide_eq_false_2 (c = f)) by exact Hne.
    apply (f_equal (fun b : bool => if b then col c s else col c t)).
    apply bool_decide_ext. rewrite elem_of_cons. tauto.
Qed.

Lemma row_eq (r r' : row) : (forall c, col c r = col c r') -> r = r'.
Proof. intros H. apply map_eq. exact H. Qed.

Lemma assign_idempotent header s t :
  assign header s (assign header s t) = assign header s t.
Proof.
  apply row_eq. intros c. rewrite !col_assign. case_bool_decide; reflexivity.
Qed.

Lemma assign_self header s : assign header s s = s.
Proof.
  apply row_eq. intros c. rewrite col_assign. case_bool_decide; reflexivity.
Qed.

Lemma find_ext {A} (f g : A -> bool) l :
  (forall x, In x l -> f x = g x) -> find f l = find g l.
Proof.
  induction l as [|x l IH]; simpl; intros H; [reflexivity|].
  rewrite <- (H x) by (left; reflexivity).
  destruct (f x); [reflexivity|]. apply IH. intros y Hy. apply H. right. exact Hy.
Qed.

Lemma forallb_ext_on {A} (f g : A -> bool) l :
  (forall x, In x l -> f x = g x) -> forallb f l = forallb g l.
Proof.
  induction l as [|x l IH]; simpl; intros H; [reflexivity|].
  rewrite (H x) by (left; reflexivity). f_equal.
  apply IH. intros y Hy. apply H. right. exact Hy.
Qed.

Lemma on_cols_true cols d s :
  on_cols cols d s = true <->
  forall k, In k cols -> col k d = col k s /\ col k d <> None.
Proof.
  unfold on_cols. rewrite forallb_forall.
  split; intros H k Hk; apply sql_eq_true, H, Hk.
Qed.

(** An update that is joined on a key leaves the key as it was. *)
Lemma on_cols_assign cols header s t s' :
  on_cols cols t s = true ->
  on_cols cols (assign header s t) s' = on_cols cols t s'.
Proof.
  intros H. unfold on_cols. apply forallb_ext_on. intros k Hk.
  rewrite col_assign. case_bool_decide; [|reflexivity].
  rewrite on_cols_true in H. destruct (H k Hk) as [-> _]. reflexivity.
Qed.

(** The left join that keeps the rows whose [data] side is [NULL] is the
    anti-join. *)
Lemma filter_nil_existsb {A} (f : A -> bool) l :
  List.filter f l = [] -> existsb f l = false.
Proof.
  induction l as [|x l IH]; simpl; [reflexivity|].
  destruct (f x); [discriminate|]. exact IH.
Qed.

Lemma filter_cons_existsb {A} (f : A -> bool) l x xs :
  List.filter f l = x :: xs -> existsb f l = true.
Proof.
  intros E. apply existsb_exists. exists x.
  apply filter_In. rewrite E. left. reflexivity.
Qed.

Lemma filter_joined_none w (s : row) (l : table) :
  (forall d, In d l -> w (s, Some d) = false) ->
  List.filter w (map (fun d => (s, Some d)) l) = [].
Proof.
  induction l as [|x l IH]; simpl; intros H; [reflexivity|].
  rewrite (H x) by (left; reflexivity).
  apply IH. intros y Hy. apply H. right. exact Hy.
Qed.

Lemma SELECT_temp_anti_join w on temp target :
  (forall s, w (s, None) = true) ->
  (forall s d, on d s = true -> w (s, Some d) = false) ->
  SELECT_temp w (LEFT_JOIN on temp target) = anti_join on target temp.
Proof.
  intros Hnone Hsome. unfold SELECT_temp, LEFT_JOIN, anti_join.
  induction temp as [|s temp IH]; [reflexivity|].
  cbn [flat_map List.filter]. rewrite List.filter_app, map_app, IH. clear IH.
  destruct (List.filter (fun d => on d s) target) as [|d ds] eqn:E.
  - rewrite (filter_nil_existsb _ _ E). simpl. rewrite Hnone. reflexivity.
  - rewrite (filter_cons_existsb _ _ _ _ E). rewrite filter_joined_none; [reflexivity|].
    intros x Hx. apply Hsome. rewrite <- E in Hx. apply filter_In in Hx. tauto.
Qed.

Lemma IS_NULL_data_col_none k s : IS_NULL (data_col k (s, None)) = true.
Proof. reflexivity. Qed.

Lemma IS_NULL_data_col_joined k cols s d :
  In k cols -> on_cols cols d s = true -> IS_NULL (data_col k (s, Some d)) = false.
Proof.
  intros Hk Hon. rewrite on_cols_true in Hon. destruct (Hon k Hk) as [_ Hne].
  unfold data_col. simpl. destruct (col k d); [reflexivity|congruence].
Qed.

(** The merge predicates of the classes are equalities on key columns. *)
Lemma on_id_cols d s : SunshineTransformLoad.on_id d s = on_cols ["id"] d s.
Proof. unfold SunshineTransformLoad.on_id, on_cols. simpl. rewrite andb_true_r. reflexivity. Qed.

Lemma on_id_current_cols d s :
  SunshineOfficers.on_id_current d s = on_cols ["id"; "current"] d s.
Proof. unfold SunshineOfficers.on_id_current, on_cols. simpl. rewrite andb_true_r. reflexivity. Qed.

Lemma on_link_cols d s :
  SunshineCandidateCommittees.on_link d s = on_cols ["committee_id"; "candidate_id"] d s.
Proof.
  unfold SunshineCandidateCommittees.on_link, on_cols. simpl.
  rewrite andb_true_r. reflexivity.
Qed.

Lemma on_link'_cols d s :
  SunshineCandidateCommittees.on_link' d s = on_cols ["committee_id"; "candidate_id"] d s.
Proof.
  unfold SunshineCandidateCommittees.on_link', on_cols. simpl.
  rewrite andb_true_r, andb_comm.
  rewrite (sql_eq_sym (col "committee_id" s)), (sql_eq_sym (col "candidate_id" s)).
  reflexivity.
Qed.

(** *** Two passes of a keyed merge over the same staged rows *)

Lemma filter_none {A} (f : A -> bool) l :
  (forall x, In x l -> f x = false) -> List.filter f l = [].
Proof.
  induction l as [|x l IH]; simpl; intros H; [reflexivity|].
  rewrite (H x) by (left; reflexivity).
  apply IH. intros y Hy. apply H. right. exact Hy.
Qed.

Section TwoPasses.

Variable on : row -> row -> bool.
Variable A1 : row -> row -> row.
Variable P1 : row -> row.
Variable S : table.

Hypothesis A1_key : forall s t s', on t s = true -> on (A1 s t) s' = on t s'.
Hypothesis P1_key : forall s s', on (P1 s) s' = on s s'.
Hypothesis S_not_null : forall s, In s S -> on s s = true.
Hypothesis S_distinct : forall s s', In s S -> In s' S -> on s s' = true -> s = s'.

(** The target after the first pass. *)
Local Abbreviation first_pass T :=
  (UPDATE_FROM A1 on T S ++ map P1 (anti_join on T S)).

Lemma find_joined t s : In s S -> on t s = true ->
  exists s', find (on t) S = Some s' /\ In s' S /\ on t s' = true.
Proof.
  intros Hs Hon. destruct (find (on t) S) as [s'|] eqn:E.
  - exists s'. apply find_some in E. tauto.
  - rewrite (find_none _ _ E s Hs) in Hon. discriminate.
Qed.

Lemma find_updated t s : find (on t) S = Some s -> find (on (A1 s t)) S = Some s.
Proof.
  intros E. rewrite <- E. apply find_ext. intros s' _.
  apply A1_key. apply find_some in E. tauto.
Qed.

Lemma find_inserted s : In s S -> find (on (P1 s)) S = Some s.
Proof.
  intros Hs.
  destruct (find_joined (P1 s) s Hs) as (s' & E & Hs' & Hon).
  { rewrite P1_key. apply S_not_null, Hs. }
  rewrite E. f_equal. symmetry. apply S_distinct; auto.
  rewrite <- P1_key. exact Hon.
Qed.

(** The second pass finds every staged row's key in the target. *)
Lemma second_pass_inserts_nothing T : anti_join on (first_pass T) S = [].
Proof.
  assert (H : forall s, In s S -> existsb (fun d => on d s) (first_pass T) = true).
  { intros s Hs. rewrite existsb_app.
    destruct (existsb (fun d => on d s) T) eqn:Hex.
    - apply existsb_exists in Hex as (t & Ht & Hon).
      apply orb_true_intro. left. apply existsb_exists.
      destruct (find_joined t s Hs Hon) as (s' & E & Hs' & Hon').
      exists (A1 s' t). split.
      + unfold UPDATE_FROM. apply in_map_iff. exists t. rewrite E. auto.
      + rewrite A1_key by exact Hon'. exact Hon.
    - apply orb_true_intro. right. apply existsb_exists.
      exists (P1 s). split.
      + apply in_map. apply filter_In. rewrite Hex. auto.
      + rewrite P1_key. apply S_not_null, Hs. }
  unfold anti_join at 1. apply filter_none. intros s Hs. rewrite (H s Hs). reflexivity.
Qed.

(** The assignment of the second pass. *)
Variable A2 : row -> row -> row.

(** The second pass updates every row from the staged row that made it. *)
Lemma second_pass_updates T :
  UPDATE_FROM A2 on (first_pass T) S =
  map (fun t => match find (on t) S with
                | Some s => A2 s (A1 s t)
                | None => t
                end) T
  ++ map (fun s => A2 s (P1 s)) (anti_join on T S).
Proof.
  unfold UPDATE_FROM. rewrite map_app, !map_map. f_equal.
  - apply map_ext. intros t.
    destruct (find (on t) S) as [s|] eqn:E.
    + rewrite (find_updated t s E). reflexivity.
    + rewrite E. reflexivity.
  - apply map_ext_in. intros s Hs.
    apply filter_In in Hs as [Hs _]. rewrite (find_inserted s Hs). reflexivity.
Qed.

(** Under a view [E] of the rows that the second assignment does not change,
    the second pass changes nothing. *)
Lemma second_pass_same (E : row -> row) T :
  (forall s t, E (A2 s (A1 s t)) = E (A1 s t)) ->
  (forall s, E (A2 s (P1 s)) = E (P1 s)) ->
  map E (UPDATE_FROM A2 on (first_pass T) S) = map E (first_pass T).
Proof.
  intros HA HP. rewrite second_pass_updates.
  unfold UPDATE_FROM. rewrite !map_app, !map_map. f_equal.
  - apply map_ext. intros t. destruct (find (on t) S); [apply HA|reflexivity].
  - apply map_ext. intros s. apply HP.
Qed.

End TwoPasses.

(** *** The merges of the classes as keyed merges *)

Lemma UPDATE_FROM_ext set on on' target temp :
  (forall d s, on d s = on' d s) ->
  UPDATE_FROM set on target temp = UPDATE_FROM set on' target temp.
Proof.
  intros H. unfold UPDATE_FROM. apply map_ext. intros t.
  rewrite (find_ext (on t) (on' t)) by (intros; apply H). reflexivity.
Qed.

Lemma anti_join_ext on on' target temp :
  (forall d s, on d s = on' d s) ->
  anti_join on target temp = anti_join on' target temp.
Proof.
  intros H. unfold anti_join. apply filter_ext. intros s. f_equal.
  induction target as [|d target IH]; simpl; [reflexivity|]. rewrite H, IH. reflexivity.
Qed.

Lemma base_upsert_rows header now target temp :
  SunshineTransformLoad.upsert_rows header now target temp =
  (UPDATE_FROM (assign header) (on_cols ["id"]) target temp
     ++ anti_join (on_cols ["id"]) target temp,
   anti_join (on_cols ["id"]) target temp).
Proof.
  unfold SunshineTransformLoad.upsert_rows.
  rewrite SELECT_temp_anti_join.
  - rewrite (UPDATE_FROM_ext _ _ _ _ _ on_id_cols), (anti_join_ext _ _ _ _ on_id_cols).
    reflexivity.
  - intros s. reflexivity.
  - intros s d H. rewrite on_id_cols in H.
    apply (IS_NULL_data_col_joined "id" ["id"]); [left; reflexivity|exact H].
Qed.

Lemma candidates_upsert_rows header now target temp :
  SunshineCandidates.upsert_rows header now target temp =
  (UPDATE_FROM (candidates_update header now) (on_cols ["id"]) target temp
     ++ map (candidates_insert header now) (anti_join (on_cols ["id"]) target temp),
   map (candidates_insert header now) (anti_join (on_cols ["id"]) target temp)).
Proof.
  unfold SunshineCandidates.upsert_rows.
  rewrite SELECT_temp_anti_join.
  - rewrite (UPDATE_FROM_ext _ _ _ _ _ on_id_cols), (anti_join_ext _ _ _ _ on_id_cols).
    reflexivity.
  - intros s. reflexivity.
  - intros s d H. rewrite on_id_cols in H.
    apply (IS_NULL_data_col_joined "id" ["id"]); [left; reflexivity|exact H].
Qed.

Lemma officers_upsert_rows header now target temp :
  SunshineOfficers.upsert_rows header now target temp =
  (UPDATE_FROM (assign header) (on_cols ["id"; "current"]) target temp
     ++ map (fun s => assign header s ∅)
            (anti_join (on_cols ["id"; "current"]) target temp),
   map (fun s => assign header s ∅)
       (anti_join (on_cols ["id"; "current"]) target temp)).
Proof.
  unfold SunshineOfficers.upsert_rows.
  rewrite SELECT_temp_anti_join.
  - rewrite (UPDATE_FROM_ext _ _ _ _ _ on_id_current_cols),
      (anti_join_ext _ _ _ _ on_id_current_cols).
    reflexivity.
  - intros s. reflexivity.
  - intros s d H. rewrite on_id_current_cols in H.
    rewrite (IS_NULL_data_col_joined "id" ["id"; "current"] s d);
      [reflexivity | left; reflexivity | exact H].
Qed.

Lemma candidate_committees_upsert_rows header now target temp :
  SunshineCandidateCommittees.upsert_rows header now target temp =
  (UPDATE_FROM (assign header) (on_cols ["committee_id"; "candidate_id"]) target temp
     ++ anti_join (on_cols ["committee_id"; "candidate_id"]) target temp,
   anti_join (on_cols ["committee_id"; "candidate_id"]) target temp).
Proof.
  unfold SunshineCandidateCommittees.upsert_rows.
  rewrite SELECT_temp_anti_join with (on := SunshineCandidateCommittees.on_link').
  - rewrite (UPDATE_FROM_ext _ _ _ _ _ on_link_cols), (anti_join_ext _ _ _ _ on_link'_cols).
    reflexivity.
  - intros s. reflexivity.
  - intros s d H. rewrite on_link'_cols in H.
    rewrite (IS_NULL_data_col_joined "candidate_id" ["committee_id"; "candidate_id"] s d);
      [reflexivity | right; left; reflexivity | exact H].
Qed.

Lemma on_cols_set_col cols c v r s :
  ~ In c cols -> on_cols cols (set_col c v r) s = on_cols cols r s.
Proof.
  intros Hc. unfold on_cols. apply forallb_ext_on. intros k Hk.
  rewrite col_set_col. rewrite bool_decide_eq_false_2; [reflexivity|].
  intros ->. exact (Hc Hk).
Qed.

Lemma on_cols_project cols header s s' :
  incl cols header -> on_cols cols (assign header s ∅) s' = on_cols cols s s'.
Proof.
  intros Hincl. unfold on_cols. apply forallb_ext_on. intros k Hk.
  rewrite col_assign. rewrite bool_decide_eq_true_2; [reflexivity|].
  apply list_elem_of_In, Hincl, Hk.
Qed.

Lemma candidates_header_spec columns f :
  In f (SunshineCandidates.header columns) ->
  f <> "date_added" /\ f <> "last_update" /\ f <> "ocd_id".
Proof.
  unfold SunshineCandidates.header. intros H. apply filter_In in H as [_ H].
  apply negb_true_iff, bool_decide_eq_false in H.
  repeat split; intros ->; apply H; set_solver.
Qed.

(** Rewriting the cells of a row built from assignments. *)
Ltac cols :=
  apply row_eq; intros ?c;
  repeat first [rewrite col_set_col | rewrite col_assign];
  repeat case_bool_decide; subst; try reflexivity; try congruence.

Section ClassesTwice.

Variables (header : list string) (now1 now2 : Z) (target temp : table).

(** A merge that updates with [assign header] and inserts [P s], joined on
    the columns [cols]. *)
Lemma keyed_twice cols (P : row -> row) :
  (forall s s', on_cols cols (P s) s' = on_cols cols s s') ->
  (forall s, assign header s (P s) = P s) ->
  no_null_keys cols temp -> distinct_keys cols temp ->
  let target1 :=
    UPDATE_FROM (assign header) (on_cols cols) target temp
    ++ map P (anti_join (on_cols cols) target temp) in
  anti_join (on_cols cols) target1 temp = []
  /\ UPDATE_FROM (assign header) (on_cols cols) target1 temp = target1.
Proof.
  intros HP HPs Hnn Hd target1. split.
  - apply second_pass_inserts_nothing; auto using on_cols_assign.
  - pose proof (second_pass_same (on_cols cols) (assign header) P temp
                  (on_cols_assign cols header) HP Hnn Hd (assign header) id target
                  (fun s t => assign_idempotent header s t) HPs) as H.
    rewrite !map_id in H. exact H.
Qed.

Lemma base_twice :
  no_null_keys ["id"] temp -> distinct_keys ["id"] temp ->
  SunshineTransformLoad.upsert_rows header now2
    (fst (SunshineTransformLoad.upsert_rows header now1 target temp)) temp
  = (fst (SunshineTransformLoad.upsert_rows header now1 target temp), []).
Proof.
  intros Hnn Hd. rewrite !base_upsert_rows. cbn [fst].
  destruct (keyed_twice ["id"] id) as [Hins Hupd]; auto using assign_self.
  rewrite map_id in Hins, Hupd. rewrite Hins, Hupd, app_nil_r. reflexivity.
Qed.

Lemma candidate_committees_twice :
  no_null_keys ["committee_id"; "candidate_id"] temp ->
  distinct_keys ["committee_id"; "candidate_id"] temp ->
  SunshineCandidateCommittees.upsert_rows header now2
    (fst (SunshineCandidateCommittees.upsert_rows header now1 target temp)) temp
  = (fst (SunshineCandidateCommittees.upsert_rows header now1 target temp), []).
Proof.
  intros Hnn Hd. rewrite !candidate_committees_upsert_rows. cbn [fst].
  destruct (keyed_twice ["committee_id"; "candidate_id"] id) as [Hins Hupd];
    auto using assign_self.
  rewrite map_id in Hins, Hupd. rewrite Hins, Hupd, app_nil_r. reflexivity.
Qed.

Lemma officers_twice :
  incl ["id"; "current"] header ->
  no_null_keys ["id"; "current"] temp -> distinct_keys ["id"; "current"] temp ->
  SunshineOfficers.upsert_rows header now2
    (fst (SunshineOfficers.upsert_rows header now1 target temp)) temp
  = (fst (SunshineOfficers.upsert_rows header now1 target temp), []).
Proof.
  intros Hincl Hnn Hd. rewrite !officers_upsert_rows. cbn [fst].
  destruct (keyed_twice ["id"; "current"] (fun s => assign header s ∅)) as [Hins Hupd];
    auto using on_cols_project, assign_idempotent.
  rewrite Hins, Hupd. simpl. rewrite app_nil_r. reflexivity.
Qed.

Lemma officer_committees_twice :
  fst (SunshineOfficerCommittees.upsert_rows now2
         (fst (SunshineOfficerCommittees.upsert_rows now1 target temp)) temp)
  = fst (SunshineOfficerCommittees.upsert_rows now1 target temp).
Proof.
  unfold SunshineOfficerCommittees.upsert_rows. cbn [fst].
  unfold UPDATE_FROM. rewrite map_map. apply map_ext. intros t.
  assert (Hkey : forall s s', SunshineOfficerCommittees.on_officer
                                (SunshineOfficerCommittees.set_committee s t) s'
                              = SunshineOfficerCommittees.on_officer t s').
  { intros s s'. unfold SunshineOfficerCommittees.on_officer,
      SunshineOfficerCommittees.set_committee.
    rewrite !col_set_col.
    rewrite !bool_decide_eq_false_2 by discriminate. reflexivity. }
  destruct (find (SunshineOfficerCommittees.on_officer t) temp) as [s|] eqn:E.
  - rewrite (find_ext _ (SunshineOfficerCommittees.on_officer t))
      by (intros; apply Hkey).
    rewrite E. unfold SunshineOfficerCommittees.set_committee. cols.
  - rewrite E. reflexivity.
Qed.

End ClassesTwice.

Section CandidatesTwice.

Variables (columns : model -> list string) (now1 now2 : Z) (target temp : table).

Local Abbreviation header := (SunshineCandidates.header columns).

Hypothesis id_in_header : incl ["id"] header.
Hypothesis temp_not_null : no_null_keys ["id"] temp.
Hypothesis temp_distinct : distinct_keys ["id"] temp.

Lemma last_update_not_in_header : "last_update" ∉ header.
Proof.
  intros H. apply list_elem_of_In, candidates_header_spec in H. tauto.
Qed.

Lemma date_added_not_in_header : "date_added" ∉ header.
Proof.
  intros H. apply list_elem_of_In, candidates_header_spec in H. tauto.
Qed.

Lemma candidates_update_key s t s' :
  on_cols ["id"] t s = true ->
  on_cols ["id"] (candidates_update header now1 s t) s' = on_cols ["id"] t s'.
Proof.
  intros H. unfold candidates_update.
  rewrite on_cols_set_col by (intros [E|[]]; discriminate E).
  apply on_cols_assign, H.
Qed.

Lemma candidates_insert_key s s' :
  on_cols ["id"] (candidates_insert header now1 s) s' = on_cols ["id"] s s'.
Proof.
  unfold candidates_insert.
  rewrite !on_cols_set_col by (intros [E|[]]; discriminate E).
  apply on_cols_project, id_in_header.
Qed.

Lemma candidates_twice_inserts :
  snd (SunshineCandidates.upsert_rows header now2
         (fst (SunshineCandidates.upsert_rows header now1 target temp)) temp) = [].
Proof.
  rewrite !candidates_upsert_rows. cbn [fst snd].
  rewrite second_pass_inserts_nothing
    by auto using candidates_update_key, candidates_insert_key.
  reflexivity.
Qed.

Lemma candidates_twice_rows (E : row -> row) :
  (forall s t, E (candidates_update header now2 s (candidates_update header now1 s t))
               = E (candidates_update header now1 s t)) ->
  (forall s, E (candidates_update header now2 s (candidates_insert header now1 s))
             = E (candidates_insert header now1 s)) ->
  map E (fst (SunshineCandidates.upsert_rows header now2
                (fst (SunshineCandidates.upsert_rows header now1 target temp)) temp))
  = map E (fst (SunshineCandidates.upsert_rows header now1 target temp)).
Proof.
  intros HA HP. rewrite !candidates_upsert_rows. cbn [fst].
  rewrite (second_pass_inserts_nothing (on_cols ["id"]) (candidates_update header now1)
             (candidates_insert header now1) temp)
    by auto using candidates_update_key, candidates_insert_key.
  simpl map at 2. rewrite app_nil_r.
  apply second_pass_same; auto using candidates_update_key, candidates_insert_key.
Qed.

Lemma candidates_twice_but_last_update :
  map (set_col "last_update" None)
    (fst (SunshineCandidates.upsert_rows header now2
            (fst (SunshineCandidates.upsert_rows header now1 target temp)) temp))
  = map (set_col "last_update" None)
      (fst (SunshineCandidates.upsert_rows header now1 target temp)).
Proof.
  pose proof last_update_not_in_header as Hlu.
  pose proof date_added_not_in_header as Hda.
  apply candidates_twice_rows.
  - intros s t. unfold candidates_update. cols.
  - intros s. unfold candidates_update, candidates_insert. cols.
Qed.

Lemma candidates_twice_same_clock :
  now2 = now1 ->
  fst (SunshineCandidates.upsert_rows header now2
         (fst (SunshineCandidates.upsert_rows header now1 target temp)) temp)
  = fst (SunshineCandidates.upsert_rows header now1 target temp).
Proof.
  intros Hnow.
  pose proof last_update_not_in_header as Hlu.
  pose proof date_added_not_in_header as Hda.
  pose proof (candidates_twice_rows id) as H. rewrite !map_id in H.
  apply H; rewrite Hnow.
  - intros s t. unfold id, candidates_update. cols.
  - intros s. unfold id, candidates_update, candidates_insert. cols.
Qed.

End CandidatesTwice.

(** *** The claims about the merges *)

Lemma lookup_map {A B} (f : A -> B) (l : list A) i :
  map f l !! i = f <$> l !! i.
Proof.
  revert i. induction l as [|x l IH]; intros [|i]; simpl; auto.
Qed.

Lemma lookup_UPDATE_FROM set on target temp i t :
  target !! i = Some t ->
  forall rest,
    (UPDATE_FROM set on target temp ++ rest) !! i
    = Some (match find (on t) temp with
            | Some subq => set subq t
            | None => t
            end).
Proof.
  intros Ht rest. rewrite lookup_app_l.
  - unfold UPDATE_FROM. rewrite lookup_map, Ht. reflexivity.
  - unfold UPDATE_FROM. rewrite length_map. apply lookup_lt_Some in Ht. exact Ht.
Qed.

Lemma on_cols_trans_r cols t s s' :
  on_cols cols t s = true -> on_cols cols t s' = true -> on_cols cols s' s = true.
Proof.
  rewrite !on_cols_true. intros H H' k Hk.
  destruct (H k Hk) as [E N], (H' k Hk) as [E' N']. split; congruence.
Qed.

(** With distinct staged keys, the staged row that a target row joins is the
    one the update reads. *)
Lemma find_the_joined cols temp t s :
  distinct_keys cols temp -> In s temp -> on_cols cols t s = true ->
  find (on_cols cols t) temp = Some s.
Proof.
  intros Hd Hs Hon.
  destruct (find (on_cols cols t) temp) as [s'|] eqn:E.
  - apply find_some in E as [Hs' Hon']. f_equal.
    apply Hd; auto. apply (on_cols_trans_r cols t); assumption.
  - rewrite (find_none _ _ E s Hs) in Hon. discriminate.
Qed.

Lemma anti_join_In on target temp s :
  In s (anti_join on target temp) <->
  In s temp /\ forall t, In t target -> on t s = false.
Proof.
  unfold anti_join. rewrite filter_In, negb_true_iff. split; intros [Hs H]; split; auto.
  - intros t Ht. destruct (on t s) eqn:E; [|reflexivity].
    assert (existsb (fun d => on d s) target = true)
      by (apply existsb_exists; eauto).
    congruence.
  - destruct (existsb _ target) eqn:E; [|reflexivity].
    apply existsb_exists in E as (t & Ht & Hon). rewrite (H t Ht) in Hon. discriminate.
Qed.

(** C1, as amended: let no staged row have a [NULL] key column and no two
    different staged rows the same key, the key columns being columns of
    the dataset's header.  Then a second merge of the same staged rows
    inserts nothing, and it leaves the target as the first merge left it,
    for every dataset but the candidates; for the candidates it leaves
    every column but [last_update] as it was, and [last_update] too when
    both merges read the same clock. *)
Theorem merge_twice verdict (columns : model -> list string) (d : dataset)
    (now1 now2 : Z) (target temp : table) :
  staged_keys_ok d temp ->
  incl (key_columns d) (Self.header (driver_of verdict columns d)) ->
  let merge := merge_rows (Self.upsert (driver_of verdict columns d)) in
  let target1 := fst (merge now1 target temp) in
  (d <> OfficerCommittees -> snd (merge now2 target1 temp) = [])
  /\ (d <> Candidates -> fst (merge now2 target1 temp) = target1)
  /\ (d = Candidates ->
      map (set_col "last_update" None) (fst (merge now2 target1 temp))
      = map (set_col "last_update" None) target1
      /\ (now2 = now1 -> fst (merge now2 target1 temp) = target1)).
Proof.
  intros Hkeys Hincl.
  assert (Hsame : forall (result : table * list row) (target1 : table) (d' : dataset),
             result = (target1, []) -> d' <> Candidates ->
             (d' <> OfficerCommittees -> snd result = [])
             /\ (d' <> Candidates -> fst result = target1)
             /\ (d' = Candidates ->
                 map (set_col "last_update" None) (fst result)
                 = map (set_col "last_update" None) target1
                 /\ (now2 = now1 -> fst result = target1))).
  { intros result target1 d' -> Hd'. split; [|split]; auto; intros H; contradiction. }
  destruct d;
    unfold staged_keys_ok, key_columns, driver_of,
      SunshineCommittees.self, SunshineCandidates.self, SunshineOfficers.self,
      SunshinePrevOfficers.self, SunshineCandidacy.self,
      SunshineCandidateCommittees.self, SunshineOfficerCommittees.self,
      SunshineFiledDocs.self, SunshineD2Reports.self, SunshineReceipts.self,
      SunshineExpenditures.self, SunshineInvestments.self,
      SunshineTransformLoad.self, SunshineTransformLoad.upsert,
      SunshineCandidates.upsert, SunshineOfficers.upsert,
      SunshineCandidateCommittees.upsert, SunshineOfficerCommittees.upsert
      in Hkeys, Hincl |- *;
    cbn [merge_rows Self.upsert Self.header] in Hkeys, Hincl |- *; cbv zeta;
    try (match type of Hkeys with _ /\ _ => destruct Hkeys as [Hnn Hd] end;
         apply Hsame; [|discriminate];
         first [ apply base_twice; assumption
               | apply officers_twice; assumption
               | apply candidate_committees_twice; assumption ]).
  - (* candidates *)
    destruct Hkeys as [Hnn Hd].
    split; [|split].
    + intros _. apply candidates_twice_inserts; assumption.
    + intros H. contradiction.
    + intros _. split.
      * apply candidates_twice_but_last_update; assumption.
      * apply candidates_twice_same_clock; assumption.
  - (* officer-committee links *)
    split; [|split].
    + intros H. contradiction.
    + intros _. apply officer_committees_twice.
    + intros H. discriminate H.
Qed.

(** Two merges of the committees: one staged row merged twice into a table
    that holds an older version of it and another committee. *)
Lemma merge_twice_witness :
  let temp : table := [{["id" := VStr "1"; "name" := VStr "A"]}] in
  let target : table := [{["id" := VStr "1"; "name" := VStr "Z"]};
                         {["id" := VStr "2"; "name" := VStr "B"]}] in
  let merge := merge_rows (Self.upsert (driver_of accepts example_columns Committees)) in
  let target1 := fst (merge 1%Z target temp) in
  (Committees <> OfficerCommittees -> snd (merge 2%Z target1 temp) = [])
  /\ (Committees <> Candidates -> fst (merge 2%Z target1 temp) = target1)
  /\ (Committees = Candidates ->
      map (set_col "last_update" None) (fst (merge 2%Z target1 temp))
      = map (set_col "last_update" None) target1
      /\ (2%Z = 1%Z -> fst (merge 2%Z target1 temp) = target1)).
Proof.
  cbv zeta.
  apply (merge_twice accepts example_columns Committees 1 2).
  - split.
    + intros s [<-|[]]. vm_compute. reflexivity.
    + intros s s' [<-|[]] [<-|[]] _. reflexivity.
  - intros k [<-|[]]. simpl. auto.
Defined.

(** C1 as stated fails for the candidates: the second merge writes the
    time of the second pass into [last_update], a value that differs from
    the one the first merge left. *)
Lemma second_merge_changes_last_update :
  let temp : table := [{["id" := VStr "1"; "last_name" := VStr "A"]}] in
  let merge := merge_rows (Self.upsert (driver_of accepts example_columns Candidates)) in
  let target1 := fst (merge 1%Z [] temp) in
  let target2 := fst (merge 2%Z target1 temp) in
  map (col "last_update") target1 = [NOW 1]
  /\ map (col "last_update") target2 = [NOW 2]
  /\ bool_decide (target2 = target1) = false.
Proof. repeat split; vm_compute; reflexivity. Qed.

(** C2, as amended: the rows the merge of the base class inserts are the
    staged rows whose key joins no target row, each once and as staged; a
    staged row whose key is in the target is not inserted.  A target row
    that no staged row joins is left as it was.  When no two different
    staged rows have the same key, every target row that a staged row joins
    is updated once, its header fields set from that staged row. *)
Theorem upsert_anti_join (header : list string) (now : Z) (target temp : table) :
  let result := SunshineTransformLoad.upsert_rows header now target temp in
  snd result = anti_join SunshineTransformLoad.on_id target temp
  /\ fst result
     = UPDATE_FROM (assign header) SunshineTransformLoad.on_id target temp ++ snd result
  /\ length (fst result) = length target + length (snd result)
  /\ (forall s, In s (snd result) <->
                In s temp /\ forall t, In t target -> SunshineTransformLoad.on_id t s = false)
  /\ (forall i t, target !! i = Some t ->
                  (forall s, In s temp -> SunshineTransformLoad.on_id t s = false) ->
                  fst result !! i = Some t)
  /\ (distinct_keys ["id"] temp ->
      forall i t s, target !! i = Some t -> In s temp ->
                    SunshineTransformLoad.on_id t s = true ->
                    fst result !! i = Some (assign header s t)).
Proof.
  cbv zeta. rewrite base_upsert_rows. cbn [fst snd].
  rewrite (anti_join_ext _ _ target temp on_id_cols).
  rewrite (UPDATE_FROM_ext (assign header) _ _ target temp on_id_cols).
  split; [reflexivity|]. split; [reflexivity|].
  split; [rewrite length_app; unfold UPDATE_FROM; rewrite length_map; reflexivity|].
  split; [|split].
  - intros s. rewrite anti_join_In. split; intros [Hs H]; split; auto;
      intros t Ht; specialize (H t Ht); rewrite ?on_id_cols in *; exact H.
  - intros i t Ht Hnone. rewrite (lookup_UPDATE_FROM _ _ _ _ _ _ Ht).
    destruct (find (on_cols ["id"] t) temp) as [s|] eqn:E; [|reflexivity].
    apply find_some in E as [Hs Hon]. rewrite <- on_id_cols, (Hnone s Hs) in Hon.
    discriminate.
  - intros Hd i t s Ht Hs Hon. rewrite (lookup_UPDATE_FROM _ _ _ _ _ _ Ht).
    rewrite on_id_cols in Hon. rewrite (find_the_joined _ _ _ _ Hd Hs Hon). reflexivity.
Qed.

(** C2 as stated fails when two staged rows have the same key: the target
    row is updated once, from the first of them; the second one, whose key
    is in the target as well, updates nothing and is not inserted. *)
Lemma second_staged_row_of_a_key_is_ignored :
  let target : table := [{["id" := VStr "1"; "name" := VStr "Z"]}] in
  let first : row := {["id" := VStr "1"; "name" := VStr "A"]} in
  let second : row := {["id" := VStr "1"; "name" := VStr "B"]} in
  let result := SunshineTransformLoad.upsert_rows ["id"; "name"] 0%Z target [first; second] in
  existsb (fun t => SunshineTransformLoad.on_id t second) target = true
  /\ fst result = [first]
  /\ snd result = [].
Proof. repeat split; vm_compute; reflexivity. Qed.

(** C5: the candidates are the one dataset with managed timestamps.  A
    staged row whose key joins no target row is inserted with [date_added]
    and [last_update] both set to the current time, its header fields as
    staged.  A target row that a staged row joins has [last_update] set to
    the current time and keeps its [date_added]. *)
Theorem candidates_timestamps (columns : model -> list string) (now : Z)
    (target temp : table) :
  let header := SunshineCandidates.header columns in
  let result := SunshineCandidates.upsert_rows header now target temp in
  (forall s, In s temp ->
             (forall t, In t target -> SunshineTransformLoad.on_id t s = false) ->
             exists r, In r (snd result) /\ In r (fst result)
                       /\ col "date_added" r = NOW now
                       /\ col "last_update" r = NOW now
                       /\ forall f, In f header -> col f r = col f s)
  /\ (forall i t s, target !! i = Some t -> In s temp ->
                    SunshineTransformLoad.on_id t s = true ->
                    exists r, fst result !! i = Some r
                              /\ col "last_update" r = NOW now
                              /\ col "date_added" r = col "date_added" t)
  /\ (forall i t, target !! i = Some t ->
                  (forall s, In s temp -> SunshineTransformLoad.on_id t s = false) ->
                  fst result !! i = Some t)
  /\ length (fst result) = length target + length (snd result).
Proof.
  cbv zeta. rewrite candidates_upsert_rows. cbn [fst snd].
  pose proof (last_update_not_in_header columns) as Hlu.
  pose proof (date_added_not_in_header columns) as Hda.
  split; [|split; [|split]].
  - intros s Hs Hnone.
    assert (Hin : In (candidates_insert (SunshineCandidates.header columns) now s)
                    (map (candidates_insert (SunshineCandidates.header columns) now)
                       (anti_join (on_cols ["id"]) target temp))).
    { apply in_map, anti_join_In. split; [exact Hs|].
      intros t Ht. rewrite <- on_id_cols. apply Hnone, Ht. }
    eexists. split; [exact Hin|]. split; [apply in_or_app; right; exact Hin|].
    unfold candidates_insert. rewrite !col_set_col, !col_assign.
    split; [reflexivity|]. split; [reflexivity|].
    intros f Hf. apply list_elem_of_In in Hf.
    rewrite !col_set_col, !col_assign.
    repeat case_bool_decide; subst; try reflexivity; contradiction.
  - intros i t s Ht Hs Hon. rewrite (lookup_UPDATE_FROM _ _ _ _ _ _ Ht).
    destruct (find (on_cols ["id"] t) temp) as [s'|] eqn:E.
    + eexists. split; [reflexivity|]. unfold candidates_update.
      rewrite !col_set_col, !col_assign.
      split; repeat case_bool_decide; subst; try reflexivity; try congruence;
        contradiction.
    + rewrite on_id_cols, (find_none _ _ E s Hs) in Hon. discriminate.
  - intros i t Ht Hnone. rewrite (lookup_UPDATE_FROM _ _ _ _ _ _ Ht).
    destruct (find (on_cols ["id"] t) temp) as [s|] eqn:E; [|reflexivity].
    apply find_some in E as [Hs Hon]. rewrite <- on_id_cols, (Hnone s Hs) in Hon.
    discriminate.
  - rewrite length_app. unfold UPDATE_FROM. rewrite length_map. reflexivity.
Qed.

(** C4: the merge of the officers, which the previous officers inherit,
    joins on the id and on the [current] flag.  A target row is either left
    as it was or updated from a staged row with its id and its flag, and in
    both cases keeps its id and its flag.  The inserted rows are the staged
    rows that no target row with the same id and the same flag joins, so a
    historical record is inserted next to the current record with its id,
    and the other way round. *)
Theorem officers_partition verdict (columns : model -> list string)
    (header : list string) (now : Z) (target temp : table) :
  let result := SunshineOfficers.upsert_rows header now target temp in
  Self.upsert (SunshinePrevOfficers.self verdict columns)
  = Self.upsert (SunshineOfficers.self verdict columns)
  /\ (forall d s, SunshineOfficers.on_id_current d s = true <->
                  (col "id" d = col "id" s /\ col "id" d <> None)
                  /\ (col "current" d = col "current" s /\ col "current" d <> None))
  /\ (forall i t, target !! i = Some t ->
                  fst result !! i = Some t
                  \/ exists s, In s temp
                               /\ SunshineOfficers.on_id_current t s = true
                               /\ fst result !! i = Some (assign header s t))
  /\ (forall i t, target !! i = Some t ->
                  exists r, fst result !! i = Some r
                            /\ col "id" r = col "id" t
                            /\ col "current" r = col "current" t)
  /\ snd result
     = map (fun s => assign header s ∅)
           (anti_join SunshineOfficers.on_id_current target temp)
  /\ fst result
     = UPDATE_FROM (assign header) SunshineOfficers.on_id_current target temp
       ++ snd result
  /\ (forall s, In s temp ->
                (forall t, In t target -> SunshineOfficers.on_id_current t s = false) ->
                In (assign header s ∅) (snd result)).
Proof.
  cbv zeta. rewrite officers_upsert_rows. cbn [fst snd].
  rewrite (anti_join_ext _ _ target temp on_id_current_cols).
  rewrite (UPDATE_FROM_ext (assign header) _ _ target temp on_id_current_cols).
  split; [reflexivity|].
  split.
  { intros d s. unfold SunshineOfficers.on_id_current.
    rewrite andb_true_iff, !sql_eq_true. reflexivity. }
  split; [|split; [|split; [reflexivity|split; [reflexivity|]]]].
  - intros i t Ht. rewrite (lookup_UPDATE_FROM _ _ _ _ _ _ Ht).
    destruct (find (on_cols ["id"; "current"] t) temp) as [s|] eqn:E.
    + right. exists s. apply find_some in E as [Hs Hon].
      rewrite on_id_current_cols. auto.
    + left. reflexivity.
  - intros i t Ht. rewrite (lookup_UPDATE_FROM _ _ _ _ _ _ Ht).
    destruct (find (on_cols ["id"; "current"] t) temp) as [s|] eqn:E.
    + eexists. split; [reflexivity|].
      apply find_some in E as [Hs Hon]. rewrite on_cols_true in Hon.
      rewrite !col_assign.
      destruct (Hon "id") as [Hid _]; [left; reflexivity|].
      destruct (Hon "current") as [Hcur _]; [right; left; reflexivity|].
      split; case_bool_decide; congruence.
    + eexists. split; [reflexivity|]. split; reflexivity.
  - intros s Hs Hnone. apply (in_map (fun s => assign header s ∅)), anti_join_In. split; [exact Hs|].
    intros t Ht. rewrite <- on_id_current_cols. apply Hnone, Ht.
Qed.

(** The current and the historical record of one officer, merged into an
    empty table one after the other, as the two officer datasets are: both
    rows are there, and a further merge of either leaves both as they are. *)
Example officers_same_id_two_partitions :
  let header := ["id"; "last_name"; "current"] in
  let current : row := {["id" := VStr "7"; "last_name" := VStr "Now"; "current" := VBool true]} in
  let historical : row := {["id" := VStr "7"; "last_name" := VStr "Then"; "current" := VBool false]} in
  let t1 := fst (SunshineOfficers.upsert_rows header 0%Z [] [current]) in
  let t2 := fst (SunshineOfficers.upsert_rows header 0%Z t1 [current; historical]) in
  t2 = [current; historical]
  /\ fst (SunshineOfficers.upsert_rows header 0%Z t2 [historical]) = t2
  /\ fst (SunshineOfficers.upsert_rows header 0%Z t2 [current]) = t2.
Proof. repeat split; vm_compute; reflexivity. Qed.

(** * Further properties *)

(** ** What [strip] removes *)

Lemma append_cons a s t : (String a s ++ t)%string = String a (s ++ t)%string.
Proof. reflexivity. Qed.

Lemma append_nil_l t : (EmptyString ++ t)%string = t.
Proof. reflexivity. Qed.

Lemma blank_append s t : blank (s ++ t)%string = blank s && blank t.
Proof.
  unfold blank. induction s as [|a s IH]; [reflexivity|].
  rewrite append_cons. simpl. rewrite IH, andb_assoc. reflexivity.
Qed.

Lemma last_char_append s t :
  t <> EmptyString -> last_char (s ++ t)%string = last_char t.
Proof.
  intros Ht. induction s as [|a s IH]; [reflexivity|].
  rewrite append_cons. simpl. rewrite IH. destruct t as [|b t]; [contradiction|].
  simpl. destruct (last_char t); reflexivity.
Qed.

Lemma lstrip_split s :
  exists pre, s = (pre ++ lstrip s)%string /\ blank pre = true.
Proof.
  induction s as [|a s (pre & Hs & Hpre)]; simpl.
  - exists EmptyString. split; reflexivity.
  - destruct (isspace a) eqn:Ha.
    + exists (String a pre). rewrite append_cons. split; [f_equal; exact Hs|].
      unfold blank in *. simpl. rewrite Ha. exact Hpre.
    + exists EmptyString. split; reflexivity.
Qed.

Lemma rstrip_split s :
  exists post, s = (rstrip s ++ post)%string /\ blank post = true.
Proof.
  induction s as [|a s (post & Hs & Hpost)]; simpl.
  - exists EmptyString. split; reflexivity.
  - destruct (rstrip s) as [|b r] eqn:Hr.
    + rewrite append_nil_l in Hs. subst post.
      destruct (isspace a) eqn:Ha.
      * exists (String a s). rewrite append_nil_l. split; [reflexivity|].
        unfold blank in *. simpl. rewrite Ha. exact Hpost.
      * exists s. rewrite append_cons, append_nil_l. split; [reflexivity|exact Hpost].
    + exists post. rewrite append_cons. split; [f_equal; exact Hs|exact Hpost].
Qed.

Lemma rstrip_last s : rstrip s = EmptyString \/ not_space (last_char (rstrip s)).
Proof.
  induction s as [|a s IH]; simpl; [left; reflexivity|].
  destruct (rstrip s) as [|b r] eqn:Hr.
  - destruct (isspace a) eqn:Ha; [left; reflexivity|].
    right. exists a. split; [reflexivity|exact Ha].
  - right. destruct IH as [IH|(x & Hx & Hsp)]; [discriminate|].
    exists x. split; [|exact Hsp].
    change (last_char (String a (String b r))) with
      (match last_char (String b r) with None => Some a | Some y => Some y end).
    rewrite Hx. reflexivity.
Qed.

Lemma lstrip_first s : lstrip s = EmptyString \/ not_space (first_char (lstrip s)).
Proof.
  induction s as [|a s IH]; simpl; [left; reflexivity|].
  destruct (isspace a) eqn:Ha; [exact IH|].
  right. exists a. split; [reflexivity|exact Ha].
Qed.

(** X1: the base normalizer turns a cell into [None] exactly when the cell
    is blank (empty or whitespace only).  Any other cell becomes the text
    that is left when the whitespace before and after it is taken away:
    the cell is that text between two blank strings, and the text starts
    and ends with a character that is not whitespace. *)
Theorem clean_strips_blank_margins (c : string) :
  (blank c = true -> SunshineTransformLoad.clean c = None)
  /\ (blank c = false ->
      exists s pre post,
        SunshineTransformLoad.clean c = Some (VStr s)
        /\ c = (pre ++ s ++ post)%string
        /\ blank pre = true /\ blank post = true
        /\ not_space (first_char s) /\ not_space (last_char s)).
Proof.
  split; [apply clean_blank|].
  intros Hc.
  destruct (rstrip_split c) as (post & Hc1 & Hpost).
  destruct (lstrip_split (rstrip c)) as (pre & Hc2 & Hpre).
  fold (strip c) in Hc2.
  assert (Hne : strip c <> EmptyString).
  { intros E. rewrite E in Hc2. rewrite Hc1, Hc2, !blank_append, Hpre, Hpost in Hc.
    discriminate. }
  exists (strip c), pre, post.
  split; [|split; [|split; [exact Hpre|split; [exact Hpost|split]]]].
  - unfold SunshineTransformLoad.clean. cbv zeta.
    destruct (strip c); [contradiction|reflexivity].
  - rewrite Hc1 at 1. rewrite Hc2 at 1.
    clear. induction pre as [|a pre IH]; [reflexivity|].
    rewrite !append_cons, IH. reflexivity.
  - destruct (lstrip_first (rstrip c)) as [E|H]; [contradiction|exact H].
  - destruct (rstrip_last c) as [E|H].
    + exfalso. apply Hne. unfold strip. rewrite E. reflexivity.
    + rewrite Hc2 in H. rewrite last_char_append in H by exact Hne. exact H.
Qed.

(** ** The recodings of the dataset transforms *)

Lemma recode_spec i f (l : list cell) :
  recode i f l = match l !! i with
                 | Some x => inr (<[i := f x]> l)
                 | None => inl IndexError
                 end.
Proof.
  unfold recode, py_get, py_set. destruct (l !! i) as [x|] eqn:E; [|reflexivity].
  apply lookup_lt_Some in E. destruct (decide (i < length l)); [reflexivity|lia].
Qed.

Lemma recode_short i f (l : list cell) : length l <= i -> recode i f l = inl IndexError.
Proof. intros H. rewrite recode_spec, (lookup_ge_None_2 l i H). reflexivity. Qed.

Lemma recode_long i f (l : list cell) :
  i < length l -> exists x, l !! i = Some x /\ recode i f l = inr (<[i := f x]> l).
Proof.
  intros H. destruct (lookup_lt_is_Some_2 l i H) as [x Hx].
  exists x. rewrite recode_spec, Hx. auto.
Qed.

Lemma status_spec c :
  SunshineCommittees.status (clean_cell c) = Some (VBool (bool_decide (strip c = "A"))).
Proof.
  unfold SunshineCommittees.status, clean_cell.
  destruct c as [|a c]; [reflexivity|]. simpl str_not. cbv iota.
  repeat case_bool_decide; congruence.
Qed.

Lemma position_in p : In (SunshineCommittees.position p) committee_positions.
Proof.
  unfold SunshineCommittees.position, committee_positions.
  repeat case_bool_decide; simpl; auto.
Qed.

(** X2: the body of the loop of [SunshineCommittees.transform], which runs on
    the rows that are not empty, raises [IndexError] on a row of fewer than
    25 cells.  On a longer row it emits the record of cells that are
    the cleaned cells of the row except: the status cell (14) is a boolean,
    true exactly when the stripped cell is [A]; the two position cells (23
    and 24) are [oppose], [support] or [None]. *)
Theorem committees_transform_row (header : list string) (r : list string) :
  (length r < 25 -> SunshineCommittees.transform_row header r = inl IndexError)
  /\ (25 <= length r ->
      exists cells,
        SunshineCommittees.transform_row header r = inr (OrderedDict (zip header cells))
        /\ length cells = length r
        /\ (forall c, r !! 14 = Some c ->
                      cells !! 14 = Some (Some (VBool (bool_decide (strip c = "A")))))
        /\ (forall i, i = 23 \/ i = 24 ->
                      exists p, cells !! i = Some p /\ In p committee_positions)
        /\ (forall i, i <> 14 -> i <> 23 -> i <> 24 ->
                      cells !! i = clean_cell <$> r !! i)).
Proof.
  unfold SunshineCommittees.transform_row. cbv zeta.
  assert (Hlen : length (map clean_cell r) = length r) by apply length_map.
  split.
  - intros Hr.
    destruct (le_lt_dec (length r) 14) as [H14|H14];
      [rewrite recode_short by (rewrite length_map; lia); reflexivity|].
    destruct (recode_long 14 SunshineCommittees.status (map clean_cell r))
      as (x14 & _ & ->); [rewrite length_map; lia|].
    destruct (le_lt_dec (length r) 23) as [H23|H23];
      [rewrite recode_short by (rewrite length_insert, length_map; lia); reflexivity|].
    destruct (recode_long 23 SunshineCommittees.position
                (<[14 := SunshineCommittees.status x14]> (map clean_cell r)))
      as (x23 & _ & ->); [rewrite length_insert, length_map; lia|].
    rewrite recode_short by (rewrite !length_insert, length_map; lia). reflexivity.
  - intros Hr.
    destruct (recode_long 14 SunshineCommittees.status (map clean_cell r))
      as (x14 & Hx14 & ->); [rewrite length_map; lia|].
    destruct (recode_long 23 SunshineCommittees.position
                (<[14 := SunshineCommittees.status x14]> (map clean_cell r)))
      as (x23 & _ & ->); [rewrite length_insert, length_map; lia|].
    destruct (recode_long 24 SunshineCommittees.position
                (<[23 := SunshineCommittees.position x23]>
                   (<[14 := SunshineCommittees.status x14]> (map clean_cell r))))
      as (x24 & _ & ->); [rewrite !length_insert, length_map; lia|].
    eexists. split; [reflexivity|].
    split; [rewrite !length_insert; exact Hlen|].
    split; [|split].
    + intros c Hc. rewrite lookup_map, Hc in Hx14. injection Hx14 as <-.
      rewrite !list_lookup_insert_ne by lia.
      rewrite list_lookup_insert_eq by (rewrite length_map; lia). f_equal. apply status_spec.
    + intros i [->| ->].
      * rewrite list_lookup_insert_ne by lia.
        rewrite list_lookup_insert_eq by (rewrite length_insert, length_map; lia).
        eexists. split; [reflexivity|apply position_in].
      * rewrite list_lookup_insert_eq by (rewrite !length_insert, length_map; lia).
        eexists. split; [reflexivity|apply position_in].
    + intros i H14 H23 H24. rewrite !list_lookup_insert_ne by lia.
      apply lookup_map.
Qed.

Lemma election_types_in c :
  In (SunshineCandidacy.election_types c) election_type_names.
Proof.
  unfold election_type_names. destruct c as [[s| |]|]; simpl; auto.
  repeat (destruct s as [|[[] [] [] [] [] [] [] []] s]; simpl; auto 7).
Qed.

Lemma race_types_in c : In (SunshineCandidacy.race_types c) race_type_names.
Proof.
  unfold race_type_names. destruct c as [[s| |]|]; simpl; auto.
  repeat (destruct s as [|[[] [] [] [] [] [] [] []] s]; simpl; auto 6).
Qed.

Lemma outcome_in c : In (SunshineCandidacy.outcome c) outcomes.
Proof.
  unfold SunshineCandidacy.outcome, outcomes. repeat case_bool_decide; simpl; auto.
Qed.

Lemma outcome_spec c :
  SunshineCandidacy.outcome (clean_cell c)
  = if bool_decide (strip c = "Won") then Some (VStr "won")
    else if bool_decide (strip c = "Lost") then Some (VStr "lost")
    else None.
Proof.
  unfold SunshineCandidacy.outcome, clean_cell.
  destruct c as [|a c]; [reflexivity|]. simpl str_not. cbv iota.
  repeat case_bool_decide; congruence.
Qed.

(** X3: the body of the loop of [SunshineCandidacy.transform], which runs on
    the rows that are not empty, raises [IndexError] on a row of fewer than
    6 cells.  On a longer row it emits the cleaned cells except: the
    election type (2) and the race type (4) are one of the names of the
    class's tables or [None], an unknown code giving [None]; the outcome (5)
    is [won], [lost] or [None] by the stripped cell. *)
Theorem candidacy_transform_row (header : list string) (r : list string) :
  (length r < 6 -> SunshineCandidacy.transform_row header r = inl IndexError)
  /\ (6 <= length r ->
      exists cells,
        SunshineCandidacy.transform_row header r = inr (OrderedDict (zip header cells))
        /\ length cells = length r
        /\ (exists e, cells !! 2 = Some e /\ In e election_type_names)
        /\ (exists t, cells !! 4 = Some t /\ In t race_type_names)
        /\ (forall c, r !! 5 = Some c ->
                      cells !! 5
                      = Some (if bool_decide (strip c = "Won") then Some (VStr "won")
                              else if bool_decide (strip c = "Lost") then Some (VStr "lost")
                              else None))
        /\ (forall i, i <> 2 -> i <> 4 -> i <> 5 ->
                      cells !! i = clean_cell <$> r !! i)).
Proof.
  unfold SunshineCandidacy.transform_row. cbv zeta.
  split.
  - intros Hr.
    destruct (le_lt_dec (length r) 2) as [H2|H2];
      [rewrite recode_short by (rewrite length_map; lia); reflexivity|].
    destruct (recode_long 2 SunshineCandidacy.election_types (map clean_cell r))
      as (x2 & _ & ->); [rewrite length_map; lia|].
    destruct (le_lt_dec (length r) 4) as [H4|H4];
      [rewrite recode_short by (rewrite length_insert, length_map; lia); reflexivity|].
    destruct (recode_long 4 SunshineCandidacy.race_types
                (<[2 := SunshineCandidacy.election_types x2]> (map clean_cell r)))
      as (x4 & _ & ->); [rewrite length_insert, length_map; lia|].
    rewrite recode_short by (rewrite !length_insert, length_map; lia). reflexivity.
  - intros Hr.
    destruct (recode_long 2 SunshineCandidacy.election_types (map clean_cell r))
      as (x2 & _ & ->); [rewrite length_map; lia|].
    destruct (recode_long 4 SunshineCandidacy.race_types
                (<[2 := SunshineCandidacy.election_types x2]> (map clean_cell r)))
      as (x4 & _ & ->); [rewrite length_insert, length_map; lia|].
    destruct (recode_long 5 SunshineCandidacy.outcome
                (<[4 := SunshineCandidacy.race_types x4]>
                   (<[2 := SunshineCandidacy.election_types x2]> (map clean_cell r))))
      as (x5 & Hx5 & ->); [rewrite !length_insert, length_map; lia|].
    eexists. split; [reflexivity|].
    split; [rewrite !length_insert; apply length_map|].
    split; [|split; [|split]].
    + rewrite !list_lookup_insert_ne by lia.
      rewrite list_lookup_insert_eq by (rewrite length_map; lia).
      eexists. split; [reflexivity|apply election_types_in].
    + rewrite list_lookup_insert_ne by lia.
      rewrite list_lookup_insert_eq by (rewrite length_insert, length_map; lia).
      eexists. split; [reflexivity|apply race_types_in].
    + intros c Hc. rewrite !list_lookup_insert_ne, lookup_map, Hc in Hx5 by lia.
      injection Hx5 as <-.
      rewrite list_lookup_insert_eq by (rewrite !length_insert, length_map; lia).
      f_equal. apply outcome_spec.
    + intros i H2 H4 H5. rewrite !list_lookup_insert_ne by lia. apply lookup_map.
Qed.

(** ** The placeholder columns of the officer files *)

Lemma length_py_insert {A} i (x : A) l : length (py_insert i x l) = S (length l).
Proof.
  unfold py_insert. rewrite length_app, length_take. simpl. rewrite length_drop. lia.
Qed.

(** [l.insert(i, x)] within the list: [x] is at [i], what was at [i] and
    after has moved one place up. *)
Lemma lookup_py_insert {A} i (x : A) l j :
  i <= length l ->
  py_insert i x l !! j
  = if decide (j < i) then l !! j
    else if decide (j = i) then Some x
    else l !! (j - 1).
Proof.
  intros Hi. unfold py_insert.
  destruct (decide (j < i)) as [Hlt|Hge].
  - rewrite lookup_app_l by (rewrite length_take; lia). apply lookup_take_lt, Hlt.
  - rewrite lookup_app_r by (rewrite length_take; lia).
    rewrite length_take, Nat.min_l by exact Hi.
    destruct (decide (j = i)) as [->|Hne].
    + rewrite Nat.sub_diag. reflexivity.
    + destruct (j - i) as [|k] eqn:E; [lia|].
      simpl. rewrite lookup_drop. f_equal. lia.
Qed.

(** [l.insert(i, x)] past the end appends. *)
Lemma py_insert_past {A} i (x : A) l : length l <= i -> py_insert i x l = l ++ [x].
Proof.
  intros Hi. unfold py_insert. rewrite take_ge, drop_ge by exact Hi. reflexivity.
Qed.

(** X4: the body of the loop of [SunshineOfficers.transform] never raises,
    and emits three cells
    more than the row has, the last one the [current] flag.  For a row of
    at least 10 cells the first cell keeps its place, cells 1 to 9 move one
    column up behind the empty committee id, and the cells from 10 on move
    two columns up behind the empty resign date in column 11.  For a shorter
    row the resign date is not in column 11: it stands right after the last
    cell of the row. *)
Theorem officers_transform_row (current : bool) (header : list string)
    (r : list string) :
  exists cells,
    SunshineOfficers.transform_row current header r
    = inr (OrderedDict (zip header cells))
    /\ length cells = length r + 3
    /\ last cells = Some (Some (VBool current))
    /\ (0 < length r ->
        cells !! 0 = clean_cell <$> r !! 0 /\ cells !! 1 = Some None)
    /\ (10 <= length r ->
        cells !! 11 = Some None
        /\ (forall i, 1 <= i < 10 -> cells !! (i + 1) = clean_cell <$> r !! i)
        /\ (forall i, 10 <= i < length r -> cells !! (i + 2) = clean_cell <$> r !! i))
    /\ (0 < length r < 10 ->
        cells !! (length r + 1) = Some None
        /\ (forall i, 1 <= i < length r -> cells !! (i + 1) = clean_cell <$> r !! i)).
Proof.
  unfold SunshineOfficers.transform_row. cbv zeta.
  set (l := map clean_cell r).
  assert (Hl : length l = length r) by apply length_map.
  assert (Hlk : forall i, l !! i = clean_cell <$> r !! i) by (intros; apply lookup_map).
  unfold cell in *.
  exists (py_insert 11 None (py_insert 1 None l) ++ [Some (VBool current)]).
  split; [reflexivity|].
  split; [rewrite length_app, !length_py_insert, Hl; simpl; lia|].
  split; [apply last_snoc|].
  split; [|split].
  - intros Hr.
    split; (rewrite lookup_app_l by (rewrite !length_py_insert; lia)).
    + destruct (le_lt_dec 11 (length (py_insert 1 None l))) as [H|H].
      * rewrite lookup_py_insert by exact H. simpl.
        rewrite lookup_py_insert by lia. simpl. apply Hlk.
      * rewrite py_insert_past by lia.
        rewrite lookup_app_l by (rewrite length_py_insert; lia).
        rewrite lookup_py_insert by lia. simpl. apply Hlk.
    + destruct (le_lt_dec 11 (length (py_insert 1 None l))) as [H|H].
      * rewrite lookup_py_insert by exact H. simpl.
        rewrite lookup_py_insert by lia. reflexivity.
      * rewrite py_insert_past by lia.
        rewrite lookup_app_l by (rewrite length_py_insert; lia).
        rewrite lookup_py_insert by lia. reflexivity.
  - intros Hr.
    assert (H11 : 11 <= length (py_insert 1 None l)) by (rewrite length_py_insert; lia).
    split; [|split].
    + rewrite lookup_app_l by (rewrite !length_py_insert; lia).
      rewrite lookup_py_insert by exact H11. reflexivity.
    + intros i Hi. rewrite lookup_app_l by (rewrite !length_py_insert; lia).
      rewrite lookup_py_insert by exact H11.
      destruct (decide (i + 1 < 11)); [|lia].
      rewrite lookup_py_insert by lia.
      destruct (decide (i + 1 < 1)); [lia|]. destruct (decide (i + 1 = 1)); [lia|].
      replace (i + 1 - 1) with i by lia. apply Hlk.
    + intros i Hi. rewrite lookup_app_l by (rewrite !length_py_insert; lia).
      rewrite lookup_py_insert by exact H11.
      destruct (decide (i + 2 < 11)); [lia|]. destruct (decide (i + 2 = 11)); [lia|].
      rewrite lookup_py_insert by lia.
      destruct (decide (i + 2 - 1 < 1)); [lia|]. destruct (decide (i + 2 - 1 = 1)); [lia|].
      replace (i + 2 - 1 - 1) with i by lia. apply Hlk.
  - intros Hr.
    rewrite (py_insert_past 11) by (rewrite length_py_insert; lia).
    split.
    + rewrite lookup_app_l by (rewrite length_app, length_py_insert, Hl; simpl; lia).
      rewrite lookup_app_r by (rewrite length_py_insert; lia).
      rewrite length_py_insert. replace (length r + 1 - S (length l)) with 0 by lia.
      reflexivity.
    + intros i Hi.
      rewrite lookup_app_l by (rewrite length_app, length_py_insert, Hl; simpl; lia).
      rewrite lookup_app_l by (rewrite length_py_insert; lia).
      rewrite lookup_py_insert by lia.
      destruct (decide (i + 1 < 1)); [lia|]. destruct (decide (i + 1 = 1)); [lia|].
      replace (i + 1 - 1) with i by lia. apply Hlk.
Qed.

(** X5: the body of the loop of [SunshinePrevOfficers.transform] never
    raises, and emits two cells
    more than the row has, the last one the [current] flag.  For a row of
    at least 10 cells the first ten cells keep their columns, column 10
    (the phone) is empty and the cells from 10 on move one column up; the
    row gets no column for the committee id. *)
Theorem prev_officers_transform_row (current : bool) (header : list string)
    (r : list string) :
  exists cells,
    SunshinePrevOfficers.transform_row current header r
    = inr (OrderedDict (zip header cells))
    /\ length cells = length r + 2
    /\ last cells = Some (Some (VBool current))
    /\ (10 <= length r ->
        cells !! 10 = Some None
        /\ (forall i, i < 10 -> cells !! i = clean_cell <$> r !! i)
        /\ (forall i, 10 <= i < length r -> cells !! (i + 1) = clean_cell <$> r !! i)).
Proof.
  unfold SunshinePrevOfficers.transform_row. cbv zeta.
  set (l := map clean_cell r).
  assert (Hl : length l = length r) by apply length_map.
  assert (Hlk : forall i, l !! i = clean_cell <$> r !! i) by (intros; apply lookup_map).
  unfold cell in *.
  exists (py_insert 10 None l ++ [Some (VBool current)]).
  split; [reflexivity|].
  split; [rewrite length_app, !length_py_insert, Hl; simpl; lia|].
  split; [apply last_snoc|].
  intros Hr. split; [|split].
  - rewrite lookup_app_l by (rewrite !length_py_insert; lia).
    rewrite lookup_py_insert by lia. reflexivity.
  - intros i Hi. rewrite lookup_app_l by (rewrite !length_py_insert; lia).
    rewrite lookup_py_insert by lia.
    destruct (decide (i < 10)); [apply Hlk|lia].
  - intros i Hi. rewrite lookup_app_l by (rewrite !length_py_insert; lia).
    rewrite lookup_py_insert by lia.
    destruct (decide (i + 1 < 10)); [lia|]. destruct (decide (i + 1 = 10)); [lia|].
    replace (i + 1 - 1) with i by lia. apply Hlk.
Qed.

(** ** From the normalizer to the staging relation *)

Lemma od_set_fresh k v (d : record) :
  ~ In k (map fst d) -> od_set k v d = d ++ [(k, v)].
Proof.
  induction d as [|[k' v'] d IH]; simpl; intros H; [reflexivity|].
  destruct (String.eqb_spec k' k) as [->|_]; [exfalso; apply H; left; reflexivity|].
  rewrite IH by (intros Hin; apply H; right; exact Hin). reflexivity.
Qed.

Lemma map_fst_zip_incl {A B} (xs : list A) (ys : list B) x :
  In x (map fst (zip xs ys)) -> In x xs.
Proof.
  revert ys. induction xs as [|a xs IH]; intros [|b ys]; simpl; try tauto.
  intros [->|H]; [left; reflexivity|right; exact (IH ys H)].
Qed.

Lemma fold_od_set_fresh (kvs acc : record) :
  NoDup (map fst kvs) ->
  (forall k, In k (map fst kvs) -> ~ In k (map fst acc)) ->
  fold_left (fun d kv => od_set (fst kv) (snd kv) d) kvs acc = acc ++ kvs.
Proof.
  revert acc. induction kvs as [|[k v] kvs IH]; simpl; intros acc Hnd Hfresh.
  - rewrite app_nil_r. reflexivity.
  - apply NoDup_cons in Hnd as [Hk Hnd].
    rewrite od_set_fresh by (apply Hfresh; left; reflexivity).
    rewrite IH; [rewrite <- app_assoc; reflexivity | exact Hnd |].
    intros k' Hk' Hin. rewrite map_app, in_app_iff in Hin. destruct Hin as [Hin|[<-|[]]].
    + exact (Hfresh k' (or_intror Hk') Hin).
    + apply Hk, list_elem_of_In, Hk'.
Qed.

Lemma NoDup_map_fst_zip {B} (header : list string) (cells : list B) :
  NoDup header -> NoDup (map fst (zip header cells)).
Proof.
  revert cells. induction header as [|h header IH]; intros [|c cells] Hnd; simpl;
    try constructor.
  - apply NoDup_cons in Hnd as [Hh _]. intros Hin. apply Hh, list_elem_of_In.
    apply list_elem_of_In in Hin. exact (map_fst_zip_incl _ _ _ Hin).
  - apply NoDup_cons in Hnd as [_ Hnd]. apply IH, Hnd.
Qed.

(** With a header that names each column once, the dictionary is the zip
    itself. *)
Lemma OrderedDict_zip header (cells : list cell) :
  NoDup header -> OrderedDict (zip header cells) = zip header cells.
Proof.
  intros Hnd. unfold OrderedDict.
  rewrite fold_od_set_fresh; [reflexivity | apply NoDup_map_fst_zip, Hnd |].
  intros k _ [].
Qed.

Lemma od_get_zip header (cells : list cell) i h c :
  NoDup header -> header !! i = Some h -> cells !! i = Some c ->
  od_get h (zip header cells) = Some c.
Proof.
  revert cells i. induction header as [|h' header IH]; intros [|c' cells] [|i] Hnd Hh Hc;
    simpl in *; try discriminate.
  - injection Hh as ->. injection Hc as ->. rewrite String.eqb_refl. reflexivity.
  - apply NoDup_cons in Hnd as [Hh' Hnd].
    destruct (String.eqb_spec h' h) as [->|_].
    + exfalso. apply Hh'. apply list_elem_of_lookup. eauto.
    + exact (IH cells i Hnd Hh Hc).
Qed.

Lemma od_get_zip_none header (cells : list cell) h :
  ~ In h header -> od_get h (zip header cells) = None.
Proof.
  revert cells. induction header as [|h' header IH]; intros [|c cells] Hh; simpl;
    try reflexivity.
  destruct (String.eqb_spec h' h) as [->|_]; [exfalso; apply Hh; left; reflexivity|].
  apply IH. intros Hin. apply Hh. right. exact Hin.
Qed.

(** The row an insert stores has, in each column of the header, the value
    of the parameter of that name, and nothing in any other column. *)
Lemma bind_params_cols hs d r :
  bind_params hs d = inr r ->
  forall h, col h r = if bool_decide (h ∈ hs)
                      then match od_get h d with Some v => v | None => None end
                      else None.
Proof.
  revert r. induction hs as [|h' hs IH]; simpl; intros r Hr h.
  - injection Hr as <-. apply lookup_empty.
  - destruct (od_get h' d) as [v|] eqn:Hv; [|discriminate].
    destruct (bind_params hs d) as [e|r'] eqn:Hr'; [discriminate|].
    injection Hr as <-. rewrite col_set_col, (IH r' eq_refl h).
    destruct (decide (h = h')) as [->|Hne].
    + rewrite (bool_decide_eq_true_2 (h' = h')) by reflexivity.
      rewrite (bool_decide_eq_true_2 (h' ∈ h' :: hs)) by left. rewrite Hv. reflexivity.
    + rewrite (bool_decide_eq_false_2 (h = h')) by exact Hne.
      apply (f_equal (fun b : bool => if b then _ else _)).
      apply bool_decide_ext. rewrite elem_of_cons. tauto.
Qed.

Lemma bind_params_complete hs d :
  (forall h, In h hs -> exists v, od_get h d = Some v) ->
  exists r, bind_params hs d = inr r.
Proof.
  induction hs as [|h hs IH]; simpl; intros H; [eauto|].
  destruct (H h (or_introl eq_refl)) as [v ->].
  destruct IH as [r ->]; [intros h' Hh'; apply H; right; exact Hh'|]. eauto.
Qed.

(** X6: let the header name each column once.  For checked rows that are
    empty or have at least as many cells as the header, the base
    [transform] never raises and its records bind to the insert: one row
    is stored for each row of the file that is not empty, in order, holding
    in the [i]-th column of the header the normalized [i]-th cell and
    nothing in any other column; cells past the header are dropped. *)
Theorem base_rows_reach_staging (header : list string) (rows : list (list string)) :
  NoDup header ->
  Forall (fun r => r = [] \/ length header <= length r) rows ->
  exists stored,
    snd (SunshineTransformLoad.transform header rows) = None
    /\ bind_all header (fst (SunshineTransformLoad.transform header rows)) = inr stored
    /\ Forall2 (fun (r : list string) (st : row) =>
                  (forall i h, header !! i = Some h ->
                               exists c, r !! i = Some c
                                         /\ col h st = SunshineTransformLoad.clean c)
                  /\ (forall h, ~ In h header -> col h st = None))
               (nonempty_rows rows) stored.
Proof.
  intros Hnd Hrows. unfold SunshineTransformLoad.transform.
  induction Hrows as [|r rows Hr _ (stored & Hnone & Hbind & Hall)].
  - exists []. simpl. repeat split. constructor.
  - destruct r as [|c0 r0]; [exists stored; simpl; auto|].
    destruct Hr as [Hr|Hr]; [discriminate|].
    set (r := c0 :: r0) in *.
    change (yield_rows (SunshineTransformLoad.transform_row header) (r :: rows))
      with (let '(xs, e) := yield_rows (SunshineTransformLoad.transform_row header) rows in
            (OrderedDict (zip header (map SunshineTransformLoad.clean r)) :: xs, e)).
    destruct (yield_rows (SunshineTransformLoad.transform_row header) rows)
      as [records raised].
    simpl in Hnone, Hbind. subst raised.
    rewrite OrderedDict_zip by exact Hnd.
    assert (Hget : forall i h, header !! i = Some h ->
                     exists c, r !! i = Some c
                               /\ od_get h (zip header (map SunshineTransformLoad.clean r))
                                  = Some (SunshineTransformLoad.clean c)).
    { intros i h Hh.
      destruct (lookup_lt_is_Some_2 r i) as [c Hc];
        [apply lookup_lt_Some in Hh; lia|].
      exists c. split; [exact Hc|].
      apply (od_get_zip header _ i); auto. rewrite lookup_map, Hc. reflexivity. }
    destruct (bind_params_complete header
                (zip header (map SunshineTransformLoad.clean r))) as [st Hst].
    { intros h Hh. apply list_elem_of_In, list_elem_of_lookup in Hh as [i Hi].
      destruct (Hget i h Hi) as (c & _ & ->). eauto. }
    exists (st :: stored). cbn [fst snd bind_all]. rewrite Hst, Hbind.
    split; [reflexivity|]. split; [reflexivity|].
    change (nonempty_rows (r :: rows)) with (r :: nonempty_rows rows).
    constructor; [|exact Hall].
    pose proof (bind_params_cols _ _ _ Hst) as Hcols. split.
    + intros i h Hh. destruct (Hget i h Hh) as (c & Hc & Hod).
      exists c. split; [exact Hc|]. rewrite Hcols, Hod.
      rewrite bool_decide_eq_true_2; [reflexivity|].
      apply list_elem_of_lookup. eauto.
    + intros h Hh. rewrite Hcols.
      rewrite bool_decide_eq_false_2; [reflexivity|].
      intros Hin. apply Hh, list_elem_of_In, Hin.
Qed.

(** The base normalizer and the insert on a file of three checked rows, one
    of them empty. *)
Lemma base_rows_reach_staging_witness :
  exists stored,
    snd (SunshineTransformLoad.transform ["id"; "name"]
           [["1"; " Ann "]; []; ["2"; "  "; "extra"]]) = None
    /\ bind_all ["id"; "name"]
         (fst (SunshineTransformLoad.transform ["id"; "name"]
                 [["1"; " Ann "]; []; ["2"; "  "; "extra"]])) = inr stored
    /\ Forall2 (fun (r : list string) (st : row) =>
                  (forall i h, ["id"; "name"] !! i = Some h ->
                               exists c, r !! i = Some c
                                         /\ col h st = SunshineTransformLoad.clean c)
                  /\ (forall h, ~ In h ["id"; "name"] -> col h st = None))
               (nonempty_rows [["1"; " Ann "]; []; ["2"; "  "; "extra"]]) stored.
Proof.
  apply (base_rows_reach_staging ["id"; "name"]).
  - repeat (apply NoDup_cons_2;
            [rewrite ?elem_of_cons, elem_of_nil; intuition discriminate|]).
    apply NoDup_nil_2.
  - repeat (apply Forall_cons; split; [first [left; reflexivity | right; simpl; lia]|]).
    apply Forall_nil_2.
Defined.

(** ** Edges of the loader *)

(** X7: with a batch size of 0, [load] raises [ZeroDivisionError] as soon as
    the normalizer yields a record: [createTempTable] has run, and no batch
    write is sent.  When the normalizer yields nothing, the division is
    never made: [load] ends as the normalizer does. *)
Theorem load_chunk_size_zero verdict (self : driver) (file : list (list string))
    (c : connection) :
  fst (self.(Self.createTempTable) c) = inr tt ->
  SunshineTransformLoad.load verdict self 0 file c
  = (match self.(Self.transform) file with
     | (_ :: _, _) => inl ZeroDivisionError
     | ([], Some e) => inl e
     | ([], None) => inr tt
     end,
     snd (self.(Self.createTempTable) c)).
Proof.
  intros Hc. unfold SunshineTransformLoad.load, bind.
  destruct (self.(Self.createTempTable) c) as [[e|[]] c1]; simpl in Hc; [discriminate|].
  destruct (self.(Self.transform) file) as [[|row items] [e|]]; reflexivity.
Qed.

(** The candidate–committee links with a batch size of 0. *)
Lemma load_chunk_size_zero_witness :
  SunshineTransformLoad.load accepts (SunshineCandidateCommittees.self accepts) 0
    [["ID"; "CommitteeID"; "CandidateID"]; ["1"; "12"; "7"]]
    (Connection (Database {["candidate_committees" := []]} ∅ 0) None [])
  = (match (SunshineCandidateCommittees.self accepts).(Self.transform)
             [["ID"; "CommitteeID"; "CandidateID"]; ["1"; "12"; "7"]] with
     | (_ :: _, _) => inl ZeroDivisionError
     | ([], Some e) => inl e
     | ([], None) => inr tt
     end,
     snd ((SunshineCandidateCommittees.self accepts).(Self.createTempTable)
            (Connection (Database {["candidate_committees" := []]} ∅ 0) None []))).
Proof.
  apply (load_chunk_size_zero accepts (SunshineCandidateCommittees.self accepts)).
  vm_compute. reflexivity.
Defined.

(** X8: when the normalizer raises after yielding [items], [load] raises the
    same exception out of the loop.  The full batches of [items] have been
    written; the records collected since the last full batch, fewer than
    [B], are never written. *)
Theorem load_generator_raises verdict (self : driver) (B : Z)
    (file : list (list string)) (items : list record) (e : exn) (c : connection) :
  (0 < B)%Z ->
  self.(Self.transform) file = (items, Some e) ->
  (forall q db e', verdict q db = Some e' -> e' = ProgrammingError) ->
  forallb (has_params self.(Self.header)) items = true ->
  fst (self.(Self.createTempTable) c) = inr tt ->
  exists batches rest,
    items = concat batches ++ rest
    /\ Forall (fun b => Z.of_nat (length b) = B) batches
    /\ (Z.of_nat (length rest) < B)%Z
    /\ fst (SunshineTransformLoad.load verdict self B file c) = inl e
    /\ sent (snd (SunshineTransformLoad.load verdict self B file c))
       = sent (snd (self.(Self.createTempTable) c))
         ++ map (SunshineTransformLoad.insert self) batches.
Proof.
  intros HB Htr Hv Hitems Hcreate.
  unfold SunshineTransformLoad.load, bind.
  destruct (self.(Self.createTempTable) c) as [[e0|[]] c1]; simpl in Hcreate;
    [discriminate|]. clear Hcreate.
  rewrite Htr. cbn [fst snd].
  destruct (load_loop_batches verdict self B HB Hv items [] c1)
    as (batches & rest & Hr & Hs & Hcat & Hfull & Hrest); [simpl; lia | exact Hitems |].
  exists batches, rest.
  destruct (SunshineTransformLoad.load_loop verdict self B items [] c1) as [r c2].
  simpl in Hr, Hs, Hcat. subst r. simpl. auto.
Qed.

(** Three candidacies and then a row that is too short, with batches of
    two: the first two records are written, the third is lost. *)
Lemma load_generator_raises_witness :
  let self := SunshineCandidacy.self accepts example_columns in
  let file := [["ID"; "CandidateID"; "ElectionType"; "ElectionYear"; "IncChallOpen";
                "WonLost"];
               ["1"; "7"; "GE"; "2014"; "Inc"; "Won"];
               ["2"; "8"; "GP"; "2014"; "Chal"; "Lost"];
               ["3"; "9"; "GE"; "2014"; "Open"; "Won"];
               ["4"; "9"]] in
  let c := Connection (Database {["candidacies" := []]} ∅ 0) None [] in
  exists batches rest,
    fst (self.(Self.transform) file) = concat batches ++ rest
    /\ Forall (fun b => Z.of_nat (length b) = 2%Z) batches
    /\ (Z.of_nat (length rest) < 2)%Z
    /\ fst (SunshineTransformLoad.load accepts self 2 file c) = inl IndexError
    /\ sent (snd (SunshineTransformLoad.load accepts self 2 file c))
       = sent (snd (self.(Self.createTempTable) c))
         ++ map (SunshineTransformLoad.insert self) batches.
Proof.
  cbv zeta.
  apply (load_generator_raises accepts (SunshineCandidacy.self accepts example_columns) 2).
  - lia.
  - vm_compute. reflexivity.
  - intros q db e' H. discriminate H.
  - vm_compute. reflexivity.
  - vm_compute. reflexivity.
Defined.

Lemma mod_opp_zero (a b : Z) : (a mod - b =? 0)%Z = (a mod b =? 0)%Z.
Proof.
  destruct (Z.eq_dec b 0%Z) as [->|Hb]; [reflexivity|].
  destruct (Z.eqb_spec (a mod b) 0%Z) as [H|H].
  - apply Z.eqb_eq. apply Z.mod_opp_r_z; assumption.
  - apply Z.eqb_neq. rewrite Z.mod_opp_r_nz by assumption. intros E.
    pose proof (Z.mod_bound_or a b Hb). lia.
Qed.

Lemma load_loop_opp verdict self B items : forall rows c,
  SunshineTransformLoad.load_loop verdict self (- B) items rows c
  = SunshineTransformLoad.load_loop verdict self B items rows c.
Proof.
  induction items as [|row items IH]; intros rows c; [reflexivity|].
  simpl. rewrite mod_opp_zero.
  replace (- B =? 0)%Z with (B =? 0)%Z
    by (destruct (Z.eqb_spec B 0%Z), (Z.eqb_spec (- B) 0%Z); lia || reflexivity).
  destruct (B =? 0)%Z; [reflexivity|].
  destruct (_ mod B =? 0)%Z; [|apply IH].
  unfold bind. destruct (SunshineTransformLoad.executeTransaction verdict _ c)
    as [[e|[]] c1]; [reflexivity|apply IH].
Qed.

(** X9: the sign of the batch size does not matter: [load] with the batch
    size [-B] does what it does with [B], since [len(rows) % -B] is 0
    exactly when [len(rows) % B] is. *)
Theorem load_negative_chunk_size verdict (self : driver) (B : Z)
    (file : list (list string)) (c : connection) :
  SunshineTransformLoad.load verdict self (- B) file c
  = SunshineTransformLoad.load verdict self B file c.
Proof.
  unfold SunshineTransformLoad.load, bind.
  destruct (self.(Self.createTempTable) c) as [[e|[]] c1]; [reflexivity|].
  destruct (self.(Self.transform) file) as [items raised].
  rewrite load_loop_opp. reflexivity.
Qed.

(** ** A whole run of a dataset of the base class *)

Lemma temp_neq name : temp_ name <> name.
Proof.
  intros E. apply (f_equal String.length) in E.
  unfold temp_ in E. rewrite !append_cons, append_nil_l in E. simpl in E. lia.
Qed.

Lemma set_relation_twice name t t' db :
  set_relation name t' (set_relation name t db) = set_relation name t' db.
Proof. unfold set_relation. simpl. rewrite insert_insert_eq. reflexivity. Qed.

Lemma bind_all_app_inv header rows1 rows2 stored :
  bind_all header (rows1 ++ rows2) = inr stored ->
  exists s1 s2, bind_all header rows1 = inr s1 /\ bind_all header rows2 = inr s2
                /\ stored = s1 ++ s2.
Proof.
  revert stored. induction rows1 as [|d rows1 IH]; simpl; intros stored H.
  - exists [], stored. auto.
  - destruct (bind_params header d) as [e|r]; [discriminate|].
    destruct (bind_all header (rows1 ++ rows2)) as [e|rs] eqn:E; [discriminate|].
    injection H as <-. destruct (IH rs eq_refl) as (s1 & s2 & -> & -> & ->).
    exists (r :: s1), s2. auto.
Qed.

Section WholeRun.

Variable verdict : sql -> database -> option exn.
Variable self : driver.
Variable B : Z.

Hypothesis B_pos : (0 < B)%Z.
Hypothesis verdict_accepts : forall q db, verdict q db = None.

(** A batch write on a connection with no open transaction, when the
    staging relation exists: the rows are added to it and committed. *)
Lemma batch_write_commits rows rs old base log :
  bind_all self.(Self.header) rows = inr rs ->
  SunshineTransformLoad.executeTransaction verdict
    (SunshineTransformLoad.insert self rows)
    (Connection (set_relation (temp_ self.(Self.table_name)) old base) None log)
  = (inr tt,
     Connection (set_relation (temp_ self.(Self.table_name)) (old ++ rs) base) None
       (log ++ [SunshineTransformLoad.insert self rows])).
Proof.
  intros Hrs. rewrite executeTransaction_spec.
  unfold run_sql, current. simpl. rewrite verdict_accepts, Hrs.
  rewrite lookup_insert_eq, set_relation_twice. reflexivity.
Qed.

Lemma load_loop_commits items : forall rows old base log stored_all,
  (Z.of_nat (length rows) < B)%Z ->
  bind_all self.(Self.header) (rows ++ items) = inr stored_all ->
  exists rest written stored log',
    SunshineTransformLoad.load_loop verdict self B items rows
      (Connection (set_relation (temp_ self.(Self.table_name)) old base) None log)
    = (inr rest,
       Connection (set_relation (temp_ self.(Self.table_name)) (old ++ stored) base)
         None log')
    /\ rows ++ items = written ++ rest
    /\ bind_all self.(Self.header) written = inr stored.
Proof.
  induction items as [|row items IH]; intros rows old base log stored_all Hlen Hall.
  - exists rows, [], [], log. simpl. rewrite !app_nil_r. auto.
  - assert (Hlen' : (0 < Z.of_nat (length (rows ++ [row])) <= B)%Z)
      by (rewrite length_app; simpl; lia).
    simpl. destruct (Z.eqb_spec B 0) as [|_]; [lia|].
    rewrite (full_batch_mod B _ Hlen').
    replace (rows ++ row :: items) with ((rows ++ [row]) ++ items) in *
      by (rewrite <- app_assoc; reflexivity).
    case_bool_decide as Hfull.
    + unfold bind.
      destruct (bind_all_app_inv _ _ _ _ Hall) as (rs & si & Hrs & Hsi & ->).
      rewrite (batch_write_commits _ _ old base log Hrs).
      destruct (IH [] (old ++ rs) base
                  (log ++ [SunshineTransformLoad.insert self (rows ++ [row])]) si)
        as (rest & written & stored & log' & Heq & Hcat & Hw); [simpl; lia | exact Hsi |].
      exists rest, ((rows ++ [row]) ++ written), (rs ++ stored), log'.
      split; [rewrite Heq, <- app_assoc; reflexivity|].
      split; [simpl in Hcat; rewrite Hcat, <- !app_assoc; reflexivity|].
      apply bind_all_app; assumption.
    + apply (IH _ old base log stored_all); [lia | exact Hall].
Qed.

End WholeRun.

(** X10: a whole run of a dataset of the base class on a database that
    objects to nothing.  The target table exists and no relation has the
    name of the staging relation; the batch size is positive and the
    normalizer yields records that bind to the rows [stored], no two
    different ones with the same id.  Then [load]
    and [update] both return, no transaction stays open, and the database
    is the one before the run with the staging relation holding [stored] and
    the target holding the merge of [stored] into what it held. *)
Theorem load_then_update verdict (name : string) (header : list string) (B : Z)
    (file : list (list string)) (items : list record) (stored target : table)
    (db : database) (log : list sql) :
  (0 < B)%Z ->
  (forall q db', verdict q db' = None) ->
  SunshineTransformLoad.transform header file = (items, None) ->
  bind_all header items = inr stored ->
  distinct_keys ["id"] stored ->
  relations db !! name = Some target ->
  exists_relation (temp_ name) db = false ->
  let self := SunshineTransformLoad.self verdict name header in
  let c1 := SunshineTransformLoad.load verdict self B file (Connection db None log) in
  let c2 := SunshineTransformLoad.update verdict self (snd c1) in
  fst c1 = inr tt
  /\ fst c2 = inr tt
  /\ pending (snd c2) = None
  /\ committed (snd c2)
     = set_relation name
         (fst (SunshineTransformLoad.upsert_rows header (clock db) target stored))
         (set_relation (temp_ name) stored db).
Proof.
  intros HB Hv Htr Hbind _ Htarget Htemp. cbv zeta.
  set (self := SunshineTransformLoad.self verdict name header).
  assert (Hload : exists log',
             SunshineTransformLoad.load verdict self B file (Connection db None log)
             = (inr tt, Connection (set_relation (temp_ name) stored db) None log')).
  { unfold SunshineTransformLoad.load, bind.
    change (self.(Self.createTempTable))
      with (SunshineTransformLoad.createTempTable verdict name).
    change (self.(Self.transform) file)
      with (SunshineTransformLoad.transform header file).
    unfold SunshineTransformLoad.createTempTable.
    rewrite executeTransaction_spec. unfold run_sql, current. simpl.
    rewrite Hv, Htemp.
    assert (Hex : exists_relation name db = true).
    { unfold exists_relation. rewrite Htarget. reflexivity. }
    rewrite Hex, Htr.
    destruct (load_loop_commits verdict self B HB Hv items [] [] db
                (log ++ [CREATE_TABLE_AS_NO_DATA (temp_ name) name]) stored)
      as (rest & written & st & log' & Heq & Hcat & Hw); [simpl; lia | exact Hbind |].
    change (self.(Self.table_name)) with name in Heq.
    rewrite Heq. simpl in Hcat. subst items.
    destruct (bind_all_app_inv _ _ _ _ Hbind) as (s1 & s2 & Hs1 & Hs2 & ->).
    change (self.(Self.header)) with header in Hw.
    assert (s1 = st) by congruence. subst s1.
    destruct rest as [|d rest].
    - simpl in Hs2. injection Hs2 as <-. rewrite app_nil_r. simpl. eauto.
    - pose proof (batch_write_commits verdict self Hv (d :: rest) s2 st db log') as Hw2.
      change (self.(Self.table_name)) with name in Hw2.
      simpl app in Hw2 |- *. rewrite (Hw2 Hs2). eauto. }
  destruct Hload as [log' Hload]. rewrite Hload. cbn [fst snd].
  rewrite update_spec.
  change (self.(Self.upsert)) with (SunshineTransformLoad.upsert name header).
  unfold run_sql, SunshineTransformLoad.upsert, current. simpl.
  rewrite Hv.
  rewrite lookup_insert_ne by apply temp_neq.
  rewrite Htarget, lookup_insert_eq.
  destruct (SunshineTransformLoad.upsert_rows header (clock db) target stored)
    as [target' inserted].
  simpl. auto.
Qed.

(** A run of the filed documents: two rows of the file merged into a table
    that holds an older version of the first. *)
Lemma load_then_update_witness :
  let header := ["id"; "doc_name"] in
  let file := [["1"; " D-2 "]; ["2"; "A-1"]] in
  let db := Database {["filed_docs" := [{["id" := VStr "1"; "doc_name" := VStr "B-1"]}]]}
                     ∅ 5 in
  let stored : table := [{["id" := VStr "1"; "doc_name" := VStr "D-2"]};
                         {["id" := VStr "2"; "doc_name" := VStr "A-1"]}] in
  let self := SunshineTransformLoad.self accepts "filed_docs" header in
  let c1 := SunshineTransformLoad.load accepts self 50000 file (Connection db None []) in
  let c2 := SunshineTransformLoad.update accepts self (snd c1) in
  fst c1 = inr tt
  /\ fst c2 = inr tt
  /\ pending (snd c2) = None
  /\ committed (snd c2)
     = set_relation "filed_docs"
         (fst (SunshineTransformLoad.upsert_rows header (clock db)
                 [{["id" := VStr "1"; "doc_name" := VStr "B-1"]}] stored))
         (set_relation (temp_ "filed_docs") stored db).
Proof.
  cbv zeta.
  apply (load_then_update accepts "filed_docs" ["id"; "doc_name"] 50000
           [["1"; " D-2 "]; ["2"; "A-1"]]
           [[("id", Some (VStr "1")); ("doc_name", Some (VStr "D-2"))];
            [("id", Some (VStr "2")); ("doc_name", Some (VStr "A-1"))]]).
  - lia.
  - intros q db'. reflexivity.
  - vm_compute. reflexivity.
  - vm_compute. reflexivity.
  - intros s s' [<-|[<-|[]]] [<-|[<-|[]]] Hon; try reflexivity;
      vm_compute in Hon; discriminate Hon.
  - vm_compute. reflexivity.
  - vm_compute. reflexivity.
Defined.

(** ** Edges and invariants of the merges *)

Lemma UPDATE_FROM_nil set on target : UPDATE_FROM set on target [] = target.
Proof. unfold UPDATE_FROM. simpl. apply map_id. Qed.

Lemma UPDATE_FROM_RETURNING_nil set on target :
  UPDATE_FROM_RETURNING set on target [] = [].
Proof.
  unfold UPDATE_FROM_RETURNING. induction target as [|t target IH]; simpl; auto.
Qed.

Lemma anti_join_nil on temp : anti_join on [] temp = temp.
Proof.
  unfold anti_join. induction temp as [|s temp IH]; [reflexivity|].
  simpl in *. f_equal. exact IH.
Qed.

(** X11: a merge with an empty staging relation changes nothing and returns
    no row, whatever the dataset. *)
Theorem merge_of_nothing verdict (columns : model -> list string) (d : dataset)
    (now : Z) (target : table) :
  merge_rows (Self.upsert (driver_of verdict columns d)) now target [] = (target, []).
Proof.
  destruct d; simpl; unfold SunshineTransformLoad.upsert_rows,
    SunshineCandidates.upsert_rows, SunshineOfficers.upsert_rows,
    SunshineCandidateCommittees.upsert_rows, SunshineOfficerCommittees.upsert_rows;
    rewrite ?UPDATE_FROM_nil, ?UPDATE_FROM_RETURNING_nil; simpl;
    rewrite ?app_nil_r; reflexivity.
Qed.

(** X12: a merge into an empty target inserts every staged row, rows with a
    repeated key or a [NULL] key included: as staged for the base class and
    the candidate–committee links, cut down to the header for the officers,
    and cut down to the header with both timestamps set for the candidates.
    The merge of the officer–committee links inserts nothing. *)
Theorem merge_into_nothing (header : list string) (now : Z) (temp : table) :
  SunshineTransformLoad.upsert_rows header now [] temp = (temp, temp)
  /\ SunshineCandidateCommittees.upsert_rows header now [] temp = (temp, temp)
  /\ SunshineOfficers.upsert_rows header now [] temp
     = (map (fun s => assign header s ∅) temp, map (fun s => assign header s ∅) temp)
  /\ SunshineCandidates.upsert_rows header now [] temp
     = (map (fun s => set_col "date_added" (NOW now)
                        (set_col "last_update" (NOW now) (assign header s ∅))) temp,
        map (fun s => set_col "date_added" (NOW now)
                        (set_col "last_update" (NOW now) (assign header s ∅))) temp)
  /\ SunshineOfficerCommittees.upsert_rows now [] temp = ([], []).
Proof.
  rewrite base_upsert_rows, candidate_committees_upsert_rows, officers_upsert_rows,
    candidates_upsert_rows, !anti_join_nil.
  repeat split.
Qed.

(** *** Keys after a merge *)

Lemma on_cols_sym cols a b : on_cols cols a b = on_cols cols b a.
Proof. unfold on_cols. apply forallb_ext_on. intros k _. apply sql_eq_sym. Qed.

Section KeyedMerge.

Variable cols : list string.
Variable A : row -> row -> row.
Variable P : row -> row.

Hypothesis A_key : forall s t s', on_cols cols t s = true ->
                                  on_cols cols (A s t) s' = on_cols cols t s'.
Hypothesis P_key : forall s s', on_cols cols (P s) s' = on_cols cols s s'.

Local Abbreviation merged target temp :=
  (UPDATE_FROM A (on_cols cols) target temp ++ map P (anti_join (on_cols cols) target temp)).

Lemma updated_key temp t x :
  on_cols cols (match find (on_cols cols t) temp with
                | Some s => A s t
                | None => t
                end) x
  = on_cols cols t x.
Proof.
  destruct (find (on_cols cols t) temp) as [s|] eqn:E; [|reflexivity].
  apply A_key. apply find_some in E. tauto.
Qed.

(** Every staged row with a key finds its key in the merged target. *)
Lemma merged_has_key target temp s :
  In s temp -> on_cols cols s s = true ->
  exists r, In r (merged target temp) /\ on_cols cols r s = true.
Proof.
  intros Hs Hnn.
  destruct (existsb (fun d => on_cols cols d s) target) eqn:Hex.
  - apply existsb_exists in Hex as (t & Ht & Hon).
    eexists. split.
    + apply in_or_app. left. unfold UPDATE_FROM. apply in_map_iff.
      exists t. split; [reflexivity|exact Ht].
    + rewrite updated_key. exact Hon.
  - exists (P s). split.
    + apply in_or_app. right. apply in_map. apply filter_In. rewrite Hex. auto.
    + rewrite P_key. exact Hnn.
Qed.

Lemma unique_keys_app t1 t2 :
  unique_keys cols (t1 ++ t2) <->
  unique_keys cols t1 /\ unique_keys cols t2
  /\ forall a b, In a t1 -> In b t2 -> on_cols cols a b = false.
Proof.
  induction t1 as [|r t1 IH]; simpl.
  - split; [intros H; repeat split; auto; intros a b []|tauto].
  - rewrite IH. split.
    + intros (Hr & H1 & H2 & Hx). repeat split; auto.
      * intros r' Hr'. apply Hr. apply in_or_app. left. exact Hr'.
      * intros a b [<-|Ha] Hb; [apply Hr, in_or_app; right; exact Hb|auto].
    + intros ((Hr & H1) & H2 & Hx). repeat split; auto.
      intros r' Hr'. apply in_app_or in Hr' as [Hr'|Hr']; auto.
Qed.

Lemma unique_keys_map (f : row -> row) t :
  (forall x y, on_cols cols (f x) y = on_cols cols x y) ->
  unique_keys cols t -> unique_keys cols (map f t).
Proof.
  intros Hf. induction t as [|r t IH]; simpl; [auto|].
  intros [Hr Ht]. split; [|apply IH, Ht].
  intros r' Hr'. apply in_map_iff in Hr' as (y & <- & Hy).
  rewrite Hf, on_cols_sym, Hf, on_cols_sym. apply Hr, Hy.
Qed.

Lemma unique_keys_filter (f : row -> bool) t :
  unique_keys cols t -> unique_keys cols (List.filter f t).
Proof.
  induction t as [|r t IH]; simpl; [auto|].
  intros [Hr Ht]. destruct (f r); [|apply IH, Ht].
  simpl. split; [|apply IH, Ht].
  intros r' Hr'. apply filter_In in Hr' as [Hr' _]. apply Hr, Hr'.
Qed.

(** A merge of staged rows with distinct keys into a target with distinct
    keys leaves a target with distinct keys. *)
Lemma merged_unique_keys target temp :
  unique_keys cols target -> unique_keys cols temp ->
  unique_keys cols (merged target temp).
Proof.
  intros Ht Hs. apply unique_keys_app. split; [|split].
  - unfold UPDATE_FROM. apply unique_keys_map; [|exact Ht].
    intros x y. apply updated_key.
  - apply unique_keys_map; [exact P_key|]. apply unique_keys_filter, Hs.
  - intros a b Ha Hb. unfold UPDATE_FROM in Ha.
    apply in_map_iff in Ha as (t & <- & Ht').
    apply in_map_iff in Hb as (s & <- & Hs').
    rewrite updated_key, on_cols_sym, P_key, on_cols_sym.
    apply anti_join_In in Hs' as [_ Hno]. apply Hno, Ht'.
Qed.

End KeyedMerge.

(** Opening the merge statement of a dataset as far as its [upsert_rows]. *)
Ltac open_driver :=
  unfold driver_of, SunshineCandidates.self, SunshineOfficers.self,
    SunshinePrevOfficers.self, SunshineCandidateCommittees.self,
    SunshineCandidates.upsert, SunshineOfficers.upsert,
    SunshineCandidateCommittees.upsert;
  cbn [merge_rows Self.upsert Self.header].

(** The merge of every dataset with an insert is a keyed merge: an update
    that keeps the key of the row it changes, and an insert that keeps the
    key of the staged row. *)
Lemma merge_is_keyed verdict (columns : model -> list string) (d : dataset) (now : Z) :
  d <> OfficerCommittees ->
  incl (key_columns d) (Self.header (driver_of verdict columns d)) ->
  exists (A : row -> row -> row) (P : row -> row),
    (forall s t s', on_cols (key_columns d) t s = true ->
                    on_cols (key_columns d) (A s t) s' = on_cols (key_columns d) t s')
    /\ (forall s s', on_cols (key_columns d) (P s) s' = on_cols (key_columns d) s s')
    /\ (forall target temp,
          fst (merge_rows (Self.upsert (driver_of verdict columns d)) now target temp)
          = UPDATE_FROM A (on_cols (key_columns d)) target temp
            ++ map P (anti_join (on_cols (key_columns d)) target temp)).
Proof.
  intros Hd Hincl.
  assert (Hbase : forall header,
             exists (A : row -> row -> row) (P : row -> row),
               (forall s t s', on_cols ["id"] t s = true ->
                               on_cols ["id"] (A s t) s' = on_cols ["id"] t s')
               /\ (forall s s', on_cols ["id"] (P s) s' = on_cols ["id"] s s')
               /\ (forall target temp,
                     fst (SunshineTransformLoad.upsert_rows header now target temp)
                     = UPDATE_FROM A (on_cols ["id"]) target temp
                       ++ map P (anti_join (on_cols ["id"]) target temp))).
  { intros header. exists (assign header), id.
    split; [apply on_cols_assign|]. split; [reflexivity|].
    intros target temp. rewrite base_upsert_rows, map_id. reflexivity. }
  destruct d; try contradiction; try apply Hbase.
  - (* candidates *)
    exists (candidates_update (SunshineCandidates.header columns) now),
      (candidates_insert (SunshineCandidates.header columns) now).
    split; [apply candidates_update_key|].
    split; [apply candidates_insert_key, Hincl|].
    intros target temp.
    open_driver.
    rewrite candidates_upsert_rows. reflexivity.
  - (* officers *)
    exists (assign (SunshineOfficers.header columns)),
      (fun s => assign (SunshineOfficers.header columns) s ∅).
    split; [apply on_cols_assign|].
    split; [intros s s'; apply on_cols_project, Hincl|].
    intros target temp.
    open_driver.
    rewrite officers_upsert_rows. reflexivity.
  - (* previous officers *)
    exists (assign (SunshinePrevOfficers.header columns)),
      (fun s => assign (SunshinePrevOfficers.header columns) s ∅).
    split; [apply on_cols_assign|].
    split; [intros s s'; apply on_cols_project, Hincl|].
    intros target temp.
    open_driver.
    rewrite officers_upsert_rows. reflexivity.
  - (* candidate-committee links *)
    exists (assign SunshineCandidateCommittees.header), id.
    split; [apply on_cols_assign|]. split; [reflexivity|].
    intros target temp.
    open_driver.
    rewrite candidate_committees_upsert_rows, map_id. reflexivity.
Qed.

(** X13: after a merge, every staged row that has no [NULL] in a key column
    finds a row of its key in the target, for every dataset whose merge
    inserts (the key columns being columns of the header). *)
Theorem staged_keys_are_merged verdict (columns : model -> list string) (d : dataset)
    (now : Z) (target temp : table) (s : row) :
  d <> OfficerCommittees ->
  incl (key_columns d) (Self.header (driver_of verdict columns d)) ->
  In s temp ->
  on_cols (key_columns d) s s = true ->
  exists r,
    In r (fst (merge_rows (Self.upsert (driver_of verdict columns d)) now target temp))
    /\ on_cols (key_columns d) r s = true.
Proof.
  intros Hd Hincl Hs Hnn.
  destruct (merge_is_keyed verdict columns d now Hd Hincl) as (A & P & HA & HP & ->).
  apply merged_has_key; assumption.
Qed.

(** A staged officer merged into a table that holds the same officer as a
    historical record. *)
Lemma staged_keys_are_merged_witness :
  let s : row := {["id" := VStr "7"; "last_name" := VStr "Now"; "current" := VBool true]} in
  let old : row := {["id" := VStr "7"; "last_name" := VStr "Then"; "current" := VBool false]} in
  exists r,
    In r (fst (merge_rows (Self.upsert (driver_of accepts example_columns Officers))
                 0%Z [old] [s]))
    /\ on_cols (key_columns Officers) r s = true.
Proof.
  cbv zeta.
  apply (staged_keys_are_merged accepts example_columns Officers).
  - discriminate.
  - intros k [<-|[<-|[]]]; simpl; auto.
  - left. reflexivity.
  - vm_compute. reflexivity.
Defined.

(** X14: a merge keeps the keys of the target distinct: when no two rows of
    the target have the same key and no two staged rows have the same key,
    no two rows of the merged target have the same key, for every dataset
    whose merge inserts. *)
Theorem merge_keeps_keys_unique verdict (columns : model -> list string) (d : dataset)
    (now : Z) (target temp : table) :
  d <> OfficerCommittees ->
  incl (key_columns d) (Self.header (driver_of verdict columns d)) ->
  unique_keys (key_columns d) target ->
  unique_keys (key_columns d) temp ->
  unique_keys (key_columns d)
    (fst (merge_rows (Self.upsert (driver_of verdict columns d)) now target temp)).
Proof.
  intros Hd Hincl Ht Hs.
  destruct (merge_is_keyed verdict columns d now Hd Hincl) as (A & P & HA & HP & ->).
  apply merged_unique_keys; assumption.
Qed.

(** Two committees in the table, one of them and a new one staged. *)
Lemma merge_keeps_keys_unique_witness :
  let target : table := [{["id" := VStr "1"; "name" := VStr "A"]};
                         {["id" := VStr "2"; "name" := VStr "B"]}] in
  let temp : table := [{["id" := VStr "2"; "name" := VStr "B2"]};
                       {["id" := VStr "3"; "name" := VStr "C"]}] in
  unique_keys (key_columns Committees)
    (fst (merge_rows (Self.upsert (driver_of accepts example_columns Committees))
            0%Z target temp)).
Proof.
  cbv zeta.
  apply (merge_keeps_keys_unique accepts example_columns Committees).
  - discriminate.
  - intros k [<-|[]]; simpl; auto.
  - simpl. repeat split; try tauto. intros r' [<-|[]]. vm_compute. reflexivity.
  - simpl. repeat split; try tauto. intros r' [<-|[]]. vm_compute. reflexivity.
Defined.

(** X15: the merge of the candidate–committee links never changes a row
    that is in the target: its update sets the two key columns, which the
    join has found equal.  The target after the merge is the target before
    it followed by the inserted links. *)
Theorem candidate_committees_only_inserts (now : Z) (target temp : table) :
  let result := SunshineCandidateCommittees.upsert_rows
                  SunshineCandidateCommittees.header now target temp in
  fst result = target ++ snd result
  /\ snd result = anti_join SunshineCandidateCommittees.on_link target temp.
Proof.
  cbv zeta. rewrite candidate_committees_upsert_rows. cbn [fst snd].
  rewrite (anti_join_ext _ _ target temp on_link_cols).
  split; [|reflexivity]. f_equal.
  unfold UPDATE_FROM. rewrite <- (map_id target) at 2. apply map_ext. intros t.
  destruct (find (on_cols ["committee_id"; "candidate_id"] t) temp) as [s|] eqn:E;
    [|reflexivity].
  apply find_some in E as [_ Hon]. rewrite on_cols_true in Hon.
  destruct (Hon "committee_id") as [H1 _]; [left; reflexivity|].
  destruct (Hon "candidate_id") as [H2 _]; [right; left; reflexivity|].
  apply row_eq. intros c. rewrite col_assign.
  case_bool_decide as Hc; [|reflexivity].
  unfold SunshineCandidateCommittees.header in Hc.
  apply elem_of_cons in Hc as [->|Hc]; [symmetry; exact H1|].
  apply elem_of_cons in Hc as [->|Hc]; [symmetry; exact H2|].
  inversion Hc.
Qed.

(** X16: the merge of the officer–committee links inserts and deletes
    nothing and writes no column but [committee_id].  It leaves a row as it
    was when the row is not a current officer, or when no staged link names
    its id; a current officer that a staged link names gets the committee of
    a staged link with its id. *)
Theorem officer_committees_sets_committee (now : Z) (target temp : table) :
  let result := SunshineOfficerCommittees.upsert_rows now target temp in
  length (fst result) = length target
  /\ (forall i t, target !! i = Some t ->
        exists r,
          fst result !! i = Some r
          /\ (forall c, c <> "committee_id" -> col c r = col c t)
          /\ (col "current" t <> Some (VBool true) -> r = t)
          /\ ((forall s, In s temp -> sql_eq (col "id" t) (col "officer_id" s) = false) ->
              r = t)
          /\ (r = t
              \/ exists s, In s temp
                           /\ sql_eq (col "id" t) (col "officer_id" s) = true
                           /\ col "committee_id" r = col "committee_id" s)).
Proof.
  cbv zeta. unfold SunshineOfficerCommittees.upsert_rows. cbn [fst].
  split; [unfold UPDATE_FROM; apply length_map|].
  intros i t Ht.
  pose proof (lookup_UPDATE_FROM SunshineOfficerCommittees.set_committee
                SunshineOfficerCommittees.on_officer target temp i t Ht []) as H.
  rewrite app_nil_r in H. rewrite H. clear H.
  destruct (find (SunshineOfficerCommittees.on_officer t) temp) as [s|] eqn:E.
  - apply find_some in E as [Hs Hon].
    unfold SunshineOfficerCommittees.on_officer in Hon.
    apply andb_prop in Hon as [Hid Hcur].
    eexists. split; [reflexivity|].
    unfold SunshineOfficerCommittees.set_committee.
    split; [|split; [|split]].
    + intros c Hc. rewrite col_set_col, bool_decide_eq_false_2 by exact Hc. reflexivity.
    + intros Hnot. apply sql_eq_true in Hcur as [Hcur _]. contradiction.
    + intros Hnone. rewrite (Hnone s Hs) in Hid. discriminate.
    + right. exists s. split; [exact Hs|]. split; [exact Hid|].
      rewrite col_set_col, bool_decide_eq_true_2 by reflexivity. reflexivity.
  - exists t. repeat split; auto.
Qed.

(** X17: an update of a merge writes the columns of the header and no other:
    for the base class, every column outside the header keeps its value in
    every target row; for the candidates the same holds but for
    [last_update], so that [ocd_id] and [date_added] stay.  The rows the
    candidates' merge inserts have nothing in [ocd_id]. *)
Theorem update_keeps_other_columns (columns : model -> list string)
    (header : list string) (now : Z) (target temp : table) :
  (forall i t, target !! i = Some t ->
     exists r,
       fst (SunshineTransformLoad.upsert_rows header now target temp) !! i = Some r
       /\ forall c, c ∉ header -> col c r = col c t)
  /\ (forall i t, target !! i = Some t ->
        exists r,
          fst (SunshineCandidates.upsert_rows (SunshineCandidates.header columns)
                 now target temp) !! i = Some r
          /\ col "ocd_id" r = col "ocd_id" t
          /\ col "date_added" r = col "date_added" t
          /\ forall c, c ∉ SunshineCandidates.header columns -> c <> "last_update" ->
                       col c r = col c t)
  /\ (forall r, In r (snd (SunshineCandidates.upsert_rows
                             (SunshineCandidates.header columns) now target temp)) ->
                col "ocd_id" r = None).
Proof.
  assert (Hocd : "ocd_id" ∉ SunshineCandidates.header columns).
  { intros H. apply list_elem_of_In, candidates_header_spec in H. tauto. }
  pose proof (date_added_not_in_header columns) as Hda.
  split; [|split].
  - intros i t Ht. rewrite base_upsert_rows. cbn [fst].
    rewrite (lookup_UPDATE_FROM _ _ _ _ _ _ Ht).
    eexists. split; [reflexivity|]. intros c Hc.
    destruct (find (on_cols ["id"] t) temp); [|reflexivity].
    rewrite col_assign, bool_decide_eq_false_2 by exact Hc. reflexivity.
  - intros i t Ht. rewrite candidates_upsert_rows. cbn [fst].
    rewrite (lookup_UPDATE_FROM _ _ _ _ _ _ Ht).
    eexists. split; [reflexivity|].
    assert (Hframe : forall c, c ∉ SunshineCandidates.header columns ->
                               c <> "last_update" ->
                               col c match find (on_cols ["id"] t) temp with
                                     | Some subq =>
                                         candidates_update
                                           (SunshineCandidates.header columns) now subq t
                                     | None => t
                                     end = col c t).
    { intros c Hc Hlu. destruct (find (on_cols ["id"] t) temp); [|reflexivity].
      unfold candidates_update.
      rewrite col_set_col, bool_decide_eq_false_2 by exact Hlu.
      rewrite col_assign, bool_decide_eq_false_2 by exact Hc. reflexivity. }
    split; [apply Hframe; [exact Hocd|discriminate]|].
    split; [apply Hframe; [exact Hda|discriminate]|exact Hframe].
  - intros r Hr. rewrite candidates_upsert_rows in Hr. cbn [snd] in Hr.
    apply in_map_iff in Hr as (s & <- & _). unfold candidates_insert.
    rewrite !col_set_col, col_assign.
    rewrite !(bool_decide_eq_false_2 ("ocd_id" = _)) by discriminate.
    rewrite bool_decide_eq_false_2 by exact Hocd. apply lookup_empty.
Qed.

(** ** Runs of the view builder *)

Section ViewRuns.

Variable verdict : sql -> database -> option exn.
Hypothesis verdict_accepts : forall q db, verdict q db = None.

Lemma exists_relation_add_view v d db :
  exists_relation d db = true ->
  exists_relation d (Database (relations db) ({[v]} ∪ matviews db) (clock db)) = true.
Proof.
  unfold exists_relation. simpl. intros H.
  apply orb_true_iff in H as [H|H]; apply orb_true_iff; [left; exact H|right].
  apply bool_decide_eq_true in H. apply bool_decide_eq_true.
  apply elem_of_union. right. exact H.
Qed.

(** A view that does not exist and whose reads all exist is created. *)
Lemma refresh_or_create_creates v reads db log :
  exists_relation v db = false ->
  forallb (fun r => exists_relation r db) reads = true ->
  SunshineViews.refresh_or_create verdict v reads (Connection db None log)
  = (inr tt,
     Connection (Database (relations db) ({[v]} ∪ matviews db) (clock db)) None
       (log ++ [REFRESH_MATERIALIZED_VIEW v; CREATE_MATERIALIZED_VIEW v reads])).
Proof.
  intros Hv Hreads.
  assert (Hnot : bool_decide (v ∈ matviews db) = false).
  { unfold exists_relation in Hv. apply orb_false_iff in Hv. tauto. }
  unfold SunshineViews.refresh_or_create, try_except_ProgrammingError.
  rewrite views_executeTransaction_spec. unfold run_sql, current. simpl.
  rewrite verdict_accepts, Hnot.
  rewrite views_executeTransaction_spec. unfold run_sql, current. simpl.
  rewrite verdict_accepts, Hv, Hreads, <- app_assoc. reflexivity.
Qed.

(** A view that exists is refreshed, and nothing else happens. *)
Lemma refresh_or_create_refreshes v reads db log :
  v ∈ matviews db ->
  SunshineViews.refresh_or_create verdict v reads (Connection db None log)
  = (inr tt, Connection db None (log ++ [REFRESH_MATERIALIZED_VIEW v])).
Proof.
  intros Hv.
  unfold SunshineViews.refresh_or_create, try_except_ProgrammingError.
  rewrite views_executeTransaction_spec. unfold run_sql, current. simpl.
  rewrite verdict_accepts, bool_decide_eq_true_2 by exact Hv. reflexivity.
Qed.

Lemma build_all_from_scratch views : forall known db log,
  NoDup (map fst views) ->
  reads_known known views = true ->
  (forall d, d ∈ known -> exists_relation d db = true) ->
  (forall v, In v (map fst views) -> exists_relation v db = false) ->
  SunshineViews.build_all verdict views (Connection db None log)
  = (inr tt,
     Connection (Database (relations db)
                   (list_to_set (map fst views) ∪ matviews db) (clock db)) None
       (log ++ flat_map (fun view => [REFRESH_MATERIALIZED_VIEW (fst view);
                                      CREATE_MATERIALIZED_VIEW (fst view) (snd view)])
                        views)).
Proof.
  induction views as [|[v reads] rest IH]; intros known db log Hnd Hreads Hknown Hnew.
  - simpl. unfold ret. rewrite app_nil_r. destruct db as [rel mv clk]. simpl.
    do 2 f_equal. f_equal. symmetry. apply (left_id_L ∅ (∪)).
  - simpl in Hreads. apply andb_prop in Hreads as [Hr Hrest].
    simpl in Hnd. apply NoDup_cons in Hnd as [Hv Hnd].
    simpl. unfold bind.
    rewrite refresh_or_create_creates.
    + rewrite (IH (v :: known)); [| exact Hnd | exact Hrest | |].
      * simpl. rewrite <- !app_assoc. simpl. do 2 f_equal. f_equal.
        apply set_eq. intros x. rewrite !elem_of_union, elem_of_singleton. tauto.
      * intros d Hd. apply elem_of_cons in Hd as [->|Hd].
        -- unfold exists_relation. simpl. apply orb_true_iff. right.
           apply bool_decide_eq_true, elem_of_union. left.
           apply elem_of_singleton. reflexivity.
        -- apply exists_relation_add_view, Hknown, Hd.
      * intros v' Hv'. unfold exists_relation. simpl.
        pose proof (Hnew v' (or_intror Hv')) as H.
        unfold exists_relation in H. apply orb_false_iff in H as [H1 H2].
        rewrite H1. simpl. apply bool_decide_eq_false.
        apply bool_decide_eq_false in H2.
        assert (v' <> v) by (intros ->; apply Hv, list_elem_of_In, Hv').
        rewrite elem_of_union, elem_of_singleton. tauto.
    + apply Hnew. left. reflexivity.
    + apply forallb_forall. intros d Hd.
      rewrite forallb_forall in Hr. specialize (Hr d Hd).
      apply Hknown. apply bool_decide_eq_true in Hr. exact Hr.
Qed.

Lemma build_all_refreshes views : forall db log,
  (forall v, In v (map fst views) -> v ∈ matviews db) ->
  SunshineViews.build_all verdict views (Connection db None log)
  = (inr tt,
     Connection db None (log ++ map (fun view => REFRESH_MATERIALIZED_VIEW (fst view)) views)).
Proof.
  induction views as [|[v reads] rest IH]; intros db log Hall.
  - simpl. unfold ret. rewrite app_nil_r. reflexivity.
  - simpl. unfold bind.
    rewrite refresh_or_create_refreshes by (apply Hall; left; reflexivity).
    rewrite IH by (intros v' Hv'; apply Hall; right; exact Hv').
    rewrite <- app_assoc. reflexivity.
Qed.

End ViewRuns.

(** An exception in the method of one view leaves [build_all] at once. *)
Lemma build_all_stops verdict views1 v reads views2 e : forall c,
  fst (SunshineViews.build_all verdict views1 c) = inr tt ->
  fst (SunshineViews.refresh_or_create verdict v reads
         (snd (SunshineViews.build_all verdict views1 c))) = inl e ->
  SunshineViews.build_all verdict (views1 ++ (v, reads) :: views2) c
  = (inl e, snd (SunshineViews.refresh_or_create verdict v reads
                   (snd (SunshineViews.build_all verdict views1 c)))).
Proof.
  induction views1 as [|[v1 reads1] views1 IH]; intros c H1 He.
  - simpl in *. unfold ret in He. simpl in He. unfold bind.
    destruct (SunshineViews.refresh_or_create verdict v reads c) as [[e'|[]] c'];
      simpl in *; [congruence|discriminate].
  - simpl in *. unfold bind in *.
    destruct (SunshineViews.refresh_or_create verdict v1 reads1 c) as [[e'|[]] c'];
      simpl in H1; [discriminate|].
    apply IH; assumption.
Qed.

(** X18: on a database that objects to nothing and holds the tables the
    views read, where no relation has the name of a view, [makeAllViews]
    returns: every view was refreshed in vain and then created, in build
    order, and the views are all there.  Nothing else has changed. *)
Theorem makeAllViews_from_scratch verdict (db : database) (log : list sql) :
  (forall q db', verdict q db' = None) ->
  (forall t, In t base_tables -> exists_relation t db = true) ->
  (forall v, In v view_names -> exists_relation v db = false) ->
  SunshineViews.makeAllViews verdict (Connection db None log)
  = (inr tt,
     Connection (Database (relations db) (list_to_set view_names ∪ matviews db)
                   (clock db)) None
       (log ++ flat_map (fun view => [REFRESH_MATERIALIZED_VIEW (fst view);
                                      CREATE_MATERIALIZED_VIEW (fst view) (snd view)])
                        SunshineViews.build_order)).
Proof.
  intros Hv Htables Hviews. rewrite makeAllViews_build_all.
  apply (build_all_from_scratch verdict Hv SunshineViews.build_order base_tables).
  - repeat (apply NoDup_cons_2;
            [rewrite ?elem_of_cons, elem_of_nil; intuition discriminate|]).
    apply NoDup_nil_2.
  - vm_compute. reflexivity.
  - intros d Hd. apply Htables, list_elem_of_In, Hd.
  - exact Hviews.
Qed.

Lemma makeAllViews_from_scratch_witness :
  let db := Database (list_to_map (map (fun t => (t, ([] : table))) base_tables))
              ∅ 0%Z in
  SunshineViews.makeAllViews accepts (Connection db None [])
  = (inr tt,
     Connection (Database (relations db) (list_to_set view_names ∪ matviews db)
                   (clock db)) None
       ([] ++ flat_map (fun view => [REFRESH_MATERIALIZED_VIEW (fst view);
                                     CREATE_MATERIALIZED_VIEW (fst view) (snd view)])
                       SunshineViews.build_order)).
Proof.
  cbv zeta.
  apply (makeAllViews_from_scratch accepts).
  - reflexivity.
  - intros t Ht. simpl in Ht.
    repeat (destruct Ht as [<-|Ht]; [vm_compute; reflexivity|]). destruct Ht.
  - intros v Hv. simpl in Hv.
    repeat (destruct Hv as [<-|Hv]; [vm_compute; reflexivity|]). destruct Hv.
Defined.

(** X19: on a database that objects to nothing and holds every view,
    [makeAllViews] returns after ten refreshes, in build order; no create
    is sent and the database is as it was. *)
Theorem makeAllViews_refreshes verdict (db : database) (log : list sql) :
  (forall q db', verdict q db' = None) ->
  (forall v, In v view_names -> v ∈ matviews db) ->
  SunshineViews.makeAllViews verdict (Connection db None log)
  = (inr tt,
     Connection db None (log ++ map REFRESH_MATERIALIZED_VIEW view_names)).
Proof.
  intros Hv Hviews. rewrite makeAllViews_build_all.
  rewrite (build_all_refreshes verdict Hv SunshineViews.build_order) by exact Hviews.
  unfold view_names. rewrite map_map. reflexivity.
Qed.

Lemma makeAllViews_refreshes_witness :
  let db := Database ∅ (list_to_set view_names) 0%Z in
  SunshineViews.makeAllViews accepts (Connection db None [])
  = (inr tt, Connection db None ([] ++ map REFRESH_MATERIALIZED_VIEW view_names)).
Proof.
  cbv zeta.
  apply (makeAllViews_refreshes accepts).
  - reflexivity.
  - intros v Hv. unfold matviews. apply elem_of_list_to_set, list_elem_of_In, Hv.
Defined.

(** X20: the method of a view that raises ends [makeAllViews]: the views
    after it in the build order are not attempted, whether they read the
    failed view or not. *)
Theorem makeAllViews_stops_at_failure verdict (c : connection)
    (views1 views2 : list (string * list string)) (v : string) (reads : list string)
    (e : exn) :
  SunshineViews.build_order = views1 ++ (v, reads) :: views2 ->
  fst (SunshineViews.build_all verdict views1 c) = inr tt ->
  fst (SunshineViews.refresh_or_create verdict v reads
         (snd (SunshineViews.build_all verdict views1 c))) = inl e ->
  SunshineViews.makeAllViews verdict c
  = (inl e, snd (SunshineViews.refresh_or_create verdict v reads
                   (snd (SunshineViews.build_all verdict views1 c)))).
Proof.
  intros Horder H1 He. rewrite makeAllViews_build_all, Horder.
  apply build_all_stops; assumption.
Qed.

Lemma makeAllViews_stops_at_failure_witness :
  let db := Database {["candidates" := []; "expenditures" := []; "committees" := []]}
              ∅ 0%Z in
  let c := Connection db None [] in
  let views1 := [("expenditures_by_candidate", ["candidates"; "expenditures"; "committees"])] in
  SunshineViews.makeAllViews accepts c
  = (inl ProgrammingError,
     snd (SunshineViews.refresh_or_create accepts "receipts_by_week" ["receipts"]
            (snd (SunshineViews.build_all accepts views1 c)))).
Proof.
  cbv zeta.
  apply (makeAllViews_stops_at_failure accepts _ _
           (skipn 2 SunshineViews.build_order)).
  - reflexivity.
  - vm_compute. reflexivity.
  - vm_compute. reflexivity.
Defined.
